(** * rom-properties: the file layer

    A shallow embedding of

    - [src/librpbase/file/RpFile_stdio.cpp]  ([RpFile], the stdio-backed file
      object with transparent gzip decompression; the POSIX branch of the
      [#ifdef _WIN32] alternatives),
    - [src/libromdata/file/IRpFile.cpp]      ([IRpFile::getc], [IRpFile::ungetc]),
    - the declaration of [WuxReader::getPhysBlockAddr] (WuxReader.hpp),
    - [src/libromdata/Handheld/DMG.cpp]      (the cartridge tables, [CartType],
      [RomSize] and the header fields of [loadFieldData]),
    - [src/librptexture/fileformat/TGA.cpp]  (the colour map and the
      run-length decoding of [loadTGAImage]),

    together with the properties of these that the design document states
    and further ones that the code shows.

    Conventions.  [int], [int64_t] and [off64_t] values are [Z]; [size_t]
    values and stream offsets are [N]; bytes are [Byte.byte]; a buffer is a
    [list byte].  A member function that mutates the object takes the object
    and returns the new object next to its C++ return value.

    The C library and zlib are the environment of the program.  They are
    modelled for one stream over a regular file (or device node): calls fail
    for the reasons their arguments can cause (a missing file, a negative
    offset, a stream that is not open for update), and never for lack of
    resources or for a failing device.  The gzip stream is that of a file
    with one gzip member, read with the buffers that zlib allocates when
    [gzbuffer] is not called. *)

From Stdlib Require Import ZArith NArith String List Bool Lia.
From Stdlib Require Import Strings.Byte.
Import ListNotations.

Open Scope Z_scope.

(** ** <cerrno> *)

Module Errno.
Definition ENOENT : Z := 2.
Definition EIO    : Z := 5.
Definition EBADF  : Z := 9.
Definition EINVAL : Z := 22.
End Errno.
Import Errno.

(** [EOF] of <cstdio>. *)
Definition EOF : Z := -1.

(** ** Byte buffers *)

Definition zeros (n : nat) : list byte := repeat x00 n.

(** [slice off len l]: the bytes of [l] in [[off, off+len)], cut at the end
    of [l]. *)
Definition slice (off len : nat) (l : list byte) : list byte :=
  firstn len (skipn off l).

(** [resized n old]: [old] cut to [n] bytes, or extended to [n] bytes with
    zeros. *)
Definition resized (n : nat) (old : list byte) : list byte :=
  firstn n old ++ zeros (n - length old).

(** The value of a byte as an [unsigned char]. *)
Definition byte_val (b : byte) : Z := Z.of_N (Byte.to_N b).

(** An integer object loaded from memory on a little-endian host. *)
Fixpoint load_le (bs : list byte) : Z :=
  match bs with
  | [] => 0
  | b :: rest => byte_val b + 256 * load_le rest
  end.

(** The last four bytes of a file as a little-endian number: the ISIZE
    field of a gzip stream. *)
Definition gzip_isize (data : list byte) : Z :=
  load_le (slice (length data - 4) 4 data).

(** Modelled from the spec: byteswap.h, which defines [le32_to_cpu] and
    [be16_to_cpu], is not among the sources.  The design document reads the
    trailer as a little-endian 32-bit number and the magic as the standard
    two bytes; on the little-endian host that [load_le] describes,
    [le32_to_cpu] is the identity and [be16_to_cpu] swaps the two bytes. *)
Definition le32_to_cpu (x : Z) : Z := x.

Definition be16_to_cpu (x : Z) : Z :=
  Z.lor (Z.shiftl (Z.land x 255) 8) (Z.land (Z.shiftr x 8) 255).

(** ** <cstdio>, <unistd.h>, <sys/stat.h> *)

Module Stdio.

(** File type bits of [st_mode], as far as [S_ISBLK] and [S_ISCHR] look. *)
Inductive st_fmt := S_IFREG | S_IFBLK | S_IFCHR.

Definition S_ISBLK (m : st_fmt) : bool :=
  match m with S_IFBLK => true | _ => false end.
Definition S_ISCHR (m : st_fmt) : bool :=
  match m with S_IFCHR => true | _ => false end.

Record inode := mkInode { st_mode : st_fmt; i_data : list byte }.

(** The directory tree as [fopen] sees it. *)
Definition filesystem := string -> option inode.

(** A [FILE*] stream together with the file behind it.  [f_update] says
    that the stream was opened with a "+" mode; [f_error] is the error
    indicator that [ferror] reports. *)
Record FILE := mkFILE {
  f_data   : list byte;
  f_pos    : N;
  f_mode   : st_fmt;
  f_update : bool;
  f_error  : bool
}.

Definition set_pos (f : FILE) (p : N) : FILE :=
  mkFILE (f_data f) p (f_mode f) (f_update f) (f_error f).
Definition set_data (f : FILE) (d : list byte) : FILE :=
  mkFILE d (f_pos f) (f_mode f) (f_update f) (f_error f).
Definition set_error (f : FILE) (e : bool) : FILE :=
  mkFILE (f_data f) (f_pos f) (f_mode f) (f_update f) e.

(** [fopen(filename, mode)] for the three mode strings the program uses.
    The second component is the [errno] of a failed call.  The mode is a
    string: C gives no meaning to a call with a null mode pointer. *)
Definition fopen (fs : filesystem) (filename mode : string)
  : option FILE * Z :=
  if String.eqb mode "rb" then
    match fs filename with
    | Some i => (Some (mkFILE (i_data i) 0 (st_mode i) false false), 0)
    | None => (None, ENOENT)
    end
  else if String.eqb mode "rb+" then
    match fs filename with
    | Some i => (Some (mkFILE (i_data i) 0 (st_mode i) true false), 0)
    | None => (None, ENOENT)
    end
  else if String.eqb mode "wb+" then
    match fs filename with
    | Some i =>
        let d := match st_mode i with S_IFREG => [] | _ => i_data i end in
        (Some (mkFILE d 0 (st_mode i) true false), 0)
    | None => (Some (mkFILE [] 0 S_IFREG true false), 0)
    end
  else (None, EINVAL).

(** [fread(ptr, 1, size, f)]: the bytes stored through [ptr]; their number
    is the return value. *)
Definition fread (f : FILE) (size : N) : FILE * list byte :=
  let buf := slice (N.to_nat (f_pos f)) (N.to_nat size) (f_data f) in
  (set_pos f (f_pos f + N.of_nat (length buf)), buf).

(** [fwrite(ptr, 1, size, f)] with the [size] bytes at [ptr] given as
  [buf].  A hole before the position reads as zeros.  Result: stream,
  number of bytes written, [errno] of a failed call. *)
Definition fwrite (f : FILE) (buf : list byte) : FILE * N * Z :=
match buf with
| [] => (f, 0%N, 0)
| _ :: _ =>
    if f_update f then
      let p := N.to_nat (f_pos f) in
      let old := f_data f in
      let d := firstn p (old ++ zeros (p - length old)) ++ buf
               ++ skipn (p + length buf) old in
      (set_pos (set_data f d) (f_pos f + N.of_nat (length buf)),
       N.of_nat (length buf), 0)
    else (set_error f true, 0%N, EBADF)
end.

Inductive whence := SEEK_SET | SEEK_END.

(** [fseeko(f, offset, whence)]: stream, return value, [errno] of a
    failed call. *)
Definition fseeko (f : FILE) (offset : Z) (w : whence) : FILE * Z * Z :=
  let target := match w with
                | SEEK_SET => offset
                | SEEK_END => Z.of_nat (length (f_data f)) + offset
                end in
  if target <? 0 then (f, -1, EINVAL)
  else (set_pos f (Z.to_N target), 0, 0).

Definition ftello (f : FILE) : Z := Z.of_N (f_pos f).

(** [rewind(f)]: position 0, error indicator cleared. *)
Definition rewind (f : FILE) : FILE := set_error (set_pos f 0) false.

(** Written data is in [f_data] at once, so [fflush] has nothing to do. *)
Definition fflush (f : FILE) : FILE := f.

Definition ferror (f : FILE) : bool := f_error f.

(** [ftruncate(fileno(f), size)]: the file is cut, or extended with
    zeros; the offset stays.  Result: stream, return value, [errno] of a
    failed call. *)
Definition ftruncate (f : FILE) (size : Z) : FILE * Z * Z :=
  if (size <? 0) || negb (f_update f) then (f, -1, EINVAL)
  else
    let n := Z.to_nat size in
    let old := f_data f in
    (set_data f (firstn n old ++ zeros (n - length old)), 0, 0).

(** Descriptors are not modelled beyond their numbers: [fileno] gives the
  stream's descriptor and [dup] the next free one. *)
Definition fileno (f : FILE) : Z := 3.
Definition dup (fd : Z) : Z := fd + 1.

End Stdio.
Import Stdio.

(** ** zlib's gzFile, opened for reading *)

Module Zlib.

(** The state of a stream that [gzdopen(fd, "r")] gave, as [gzread],
    [gzseek] and [gztell] use it (gzlib.c and gzread.c of zlib 1.2.4 and
    later).  [gz_out] is what inflating the file gives ([None]: the data
    is not a gzip stream).  [gz_pos] is [x.pos], the offset in the
    uncompressed data of the next byte that the stream hands out, and
    [gz_have] is [x.have], the number of uncompressed bytes that wait in
    the output buffer.  [gz_seek] is a seek request that has not been
    carried out: [gzseek] does not inflate, it leaves the number of bytes
    still to pass ([skip]) for the next [gzread]; 0 stands for
    [seek == 0].  [gz_look] is [how == LOOK] as [gzdopen] and [gzrewind]
    leave it: nothing has been inflated since.  (zlib is back at [LOOK]
    at the end of the gzip member too, where no data is left for it to
    matter.)  [gz_err] is a pending stream error. *)
Record gzFile := mkGz {
  gz_out  : option (list byte);
  gz_pos  : N;
  gz_have : N;
  gz_seek : N;
  gz_look : bool;
  gz_err  : bool
}.

Definition INT_MAX : N := 2147483647.

(** [GZBUFSIZE], the buffer size of a stream on which [gzbuffer] was not
    called; the output buffer holds twice as much. *)
Definition GZBUFSIZE : N := 8192.
Definition out_size : N := 2 * GZBUFSIZE.

(** [gz_error] with a fatal error: the error is kept and the output buffer
    is given up. *)
Definition gz_error (gz : gzFile) : gzFile :=
  mkGz (gz_out gz) (gz_pos gz) 0 (gz_seek gz) (gz_look gz) true.

(** [gz_skip(state, len)] on a stream at [pos] with [have] bytes in the
    output buffer, over [total] uncompressed bytes.  The bytes are taken
    from the output buffer, which [gz_fetch] fills again, with up to
    [out_size] bytes at a time, as long as more are to be skipped; the
    skip ends where the data ends.  Result: [x.pos], [x.have] and
    [how == LOOK] afterwards. *)
Definition gz_skip (total pos have : N) (look : bool) (len : N)
  : N * N * bool :=
  if (len <=? have)%N then ((pos + len)%N, (have - len)%N, look)
  else
    let pos := (pos + have)%N in
    let len := (len - have)%N in
    let left := (total - pos)%N in
    if (left <=? len)%N then ((pos + left)%N, 0%N, false)
    else
      let r := (len mod out_size)%N in
      ((pos + len)%N,
       if (r =? 0)%N then 0%N
       else (N.min out_size (left - (len - r)) - r)%N,
       false).

(** What [gz_read(state, buf, len)], for [len > 0], leaves in the output
    buffer.  Bytes in the buffer are handed out first.  When more are
    wanted, a request below [out_size], and the first one after [gzdopen]
    or [gzrewind] whatever its length, is served through the buffer, which
    [gz_fetch] fills; a larger one is inflated into the caller's
    buffer. *)
Definition gz_read_have (total pos have : N) (look : bool) (len : N) : N :=
  if (len <=? have)%N then (have - len)%N
  else
    let pos := (pos + have)%N in
    let len := (len - have)%N in
    let left := (total - pos)%N in
    if (left <=? len)%N then 0%N
    else if look && (out_size <? len)%N then
      (* [out_size] bytes through the buffer, and the rest as below *)
      let len := (len - out_size)%N in
      let left := (left - out_size)%N in
      if (len <? out_size)%N then (N.min out_size left - len)%N else 0%N
    else if look || (len <? out_size)%N then (N.min out_size left - len)%N
    else 0%N.

(** [gzread(gz, buf, len)], [len] being an [unsigned]: the [size_t]
    argument is cut to 32 bits, and a length above [INT_MAX] is refused
    with a stream error.  A length of 0 returns at once; any other length
    first carries out a pending seek request.  Result: stream, return
    value, bytes stored in the buffer. *)
Definition gzread (gz : gzFile) (size : N) : gzFile * Z * list byte :=
  let len := (size mod 2 ^ 32)%N in
  if gz_err gz then (gz, -1, [])
  else if (INT_MAX <? len)%N then (gz_error gz, -1, [])
  else if (len =? 0)%N then (gz, 0, [])
  else match gz_out gz with
       | None => (mkGz None (gz_pos gz) 0 0 (gz_look gz) true, -1, [])
       | Some out =>
           let total := N.of_nat (length out) in
           let '(pos, have, look) :=
             gz_skip total (gz_pos gz) (gz_have gz) (gz_look gz)
                     (gz_seek gz) in
           let buf := slice (N.to_nat pos) (N.to_nat len) out in
           (mkGz (Some out) (pos + N.of_nat (length buf))
                 (gz_read_have total pos have look len) 0
                 (look && (len <=? have)%N) false,
            Z.of_nat (length buf), buf)
       end.

(** [gzrewind(gz)]: back to the start of the data, with an empty output
    buffer and no seek request. *)
Definition gzrewind (gz : gzFile) : gzFile :=
  mkGz (gz_out gz) 0 0 0 true false.

(** [gzseek(gz, offset, SEEK_SET)].  A pending stream error refuses the
    call.  Otherwise an earlier seek request is dropped, and then: an
    offset before the start of the data fails; an offset before [x.pos] is
    reached by [gzrewind] and a request to skip [offset] bytes; an offset
    from [x.pos] on passes what the output buffer holds and leaves the
    rest as a request. *)
Definition gzseek (gz : gzFile) (offset : Z) : gzFile * Z :=
  if gz_err gz then (gz, -1)
  else
    let rel := offset - Z.of_N (gz_pos gz) in
    if rel <? 0 then
      if offset <? 0 then
        (mkGz (gz_out gz) (gz_pos gz) (gz_have gz) 0 (gz_look gz) false, -1)
      else
        let gz := gzrewind gz in
        (mkGz (gz_out gz) (gz_pos gz) (gz_have gz) (Z.to_N offset)
              (gz_look gz) false, offset)
    else
      let n := N.min (gz_have gz) (Z.to_N rel) in
      (mkGz (gz_out gz) (gz_pos gz + n) (gz_have gz - n) (Z.to_N rel - n)
            (gz_look gz) false, offset).

(** [gztell(gz)]: the position that a pending seek request leads to. *)
Definition gztell (gz : gzFile) : Z := Z.of_N (gz_pos gz + gz_seek gz).

(** [gzdopen(fd, "r")] on a duplicate of the descriptor of [f]: the
  stream inflates what the file holds from the descriptor's offset on.
  [inflate] is zlib's decoder of a gzip stream. *)
Definition gzdopen (inflate : list byte -> option (list byte))
(f : FILE) (fd : Z) : option gzFile :=
Some (mkGz (inflate (skipn (N.to_nat (f_pos f)) (f_data f))) 0 0 0 true false).

End Zlib.
Import Zlib.

(** ** The outcome of a call that may leave defined behaviour *)

Inductive outcome (A : Type) : Type :=
| Returns (a : A)
| Undefined.
Arguments Returns {A} a.
Arguments Undefined {A}.

(** ** IRpFile.cpp: the file interface *)

Module LibRomData.

(** The virtual member functions that [getc] and [ungetc] call.  [read]
    gives the bytes stored in the buffer; their number is its return
    value. *)
Class IRpFile (F : Type) := {
  read : F -> N -> F * list byte;
  seek : F -> Z -> F * Z;
  tell : F -> F * Z
}.

Section GetcUngetc.
Context {F : Type} `{IRpFile F}.

(** [IRpFile::getc]: [(sz == 1 ? buf : EOF)]. *)
Definition getc (this : F) : F * Z :=
  let '(this, buf) := read this 1 in
  (this, match buf with
         | [b] => byte_val b
         | _ => EOF
         end).

(** [IRpFile::ungetc]: the character is ignored. *)
Definition ungetc (this : F) (c : Z) : F * Z :=
  let '(this, pos) := tell this in
  if pos <=? 0 then (this, -1)
  else seek this (pos - 1).

End GetcUngetc.

End LibRomData.

(** ** RpFile_stdio.cpp *)

Module LibRpBase.

(** The enumerators of [RpFile::FileMode] that the file uses.  RpFile.hpp,
    which declares them, is not among the sources: the model takes their
    values as a parameter. *)
Class FileMode := {
  FM_READ         : Z;
  FM_WRITE        : Z;
  FM_CREATE       : Z;
  FM_OPEN_READ    : Z;
  FM_OPEN_WRITE   : Z;
  FM_CREATE_WRITE : Z;
  FM_MODE_MASK    : Z;
  FM_OPEN_READ_GZ : Z
}.

(** [RpFilePrivate] and the [m_lastError] of the object it belongs to, with
    the C library's [errno] as this object's calls leave it. *)
Record RpFile := mkRpFile {
  file        : option FILE;
  filename    : string;
  mode        : Z;
  isDevice    : bool;
  gzfd        : option gzFile;
  gzsz        : Z;
  m_lastError : Z;
  errno       : Z
}.

Definition with_file (d : RpFile) (f : option FILE) : RpFile :=
  mkRpFile f (filename d) (mode d) (isDevice d) (gzfd d) (gzsz d)
           (m_lastError d) (errno d).
Definition with_isDevice (d : RpFile) (b : bool) : RpFile :=
  mkRpFile (file d) (filename d) (mode d) b (gzfd d) (gzsz d)
           (m_lastError d) (errno d).
Definition with_gzfd (d : RpFile) (g : option gzFile) : RpFile :=
  mkRpFile (file d) (filename d) (mode d) (isDevice d) g (gzsz d)
           (m_lastError d) (errno d).
Definition with_gzsz (d : RpFile) (z : Z) : RpFile :=
  mkRpFile (file d) (filename d) (mode d) (isDevice d) (gzfd d) z
           (m_lastError d) (errno d).
Definition with_lastError (d : RpFile) (e : Z) : RpFile :=
  mkRpFile (file d) (filename d) (mode d) (isDevice d) (gzfd d) (gzsz d)
           e (errno d).
Definition with_errno (d : RpFile) (e : Z) : RpFile :=
  mkRpFile (file d) (filename d) (mode d) (isDevice d) (gzfd d) (gzsz d)
           (m_lastError d) e.

(** A library call that returned [ret] and, if that is a failure, set
    [errno] to [e]. *)
Definition after_call (d : RpFile) (ret e : Z) : RpFile :=
  if ret =? 0 then d else with_errno d e.

(** The constructor of [RpFilePrivate]; [e] is [errno] at that moment. *)
Definition RpFilePrivate (filename : string) (mode e : Z) : RpFile :=
  mkRpFile None filename mode false None (-1) 0 e.

Section RpFile.
Context {fm : FileMode}.

(** [RpFilePrivate::mode_to_str]; [None] is the [nullptr] of the default
    label.  The labels of a [switch] are distinct, so the order of the
    tests does not matter. *)
Definition mode_to_str (mode : Z) : option string :=
  let m := Z.land mode FM_MODE_MASK in
  if m =? FM_OPEN_READ then Some "rb"%string
  else if m =? FM_OPEN_WRITE then Some "rb+"%string
  else if (m =? Z.lor FM_CREATE FM_READ) || (m =? FM_CREATE_WRITE)
       then Some "wb+"%string
  else None.

(** [RpFilePrivate::reOpenFile].  The function hands [mode_str] to [fopen]
    as it is; with the [nullptr] of an invalid mode the call has no defined
    behaviour. *)
Definition reOpenFile (fs : filesystem) (d : RpFile) : outcome (RpFile * Z) :=
  match mode_to_str (mode d) with
  | None => Undefined
  | Some mode_str =>
      (* if (file) fclose(file); file = fopen(filename, mode_str); *)
      match fopen fs (filename d) mode_str with
      | (None, e) =>
          let d := with_errno (with_file d None) e in
          let d := with_lastError d (errno d) in
          let d := if m_lastError d =? 0 then with_lastError d EIO else d in
          Returns (d, m_lastError d)
      | (Some f, _) =>
          (* fstat() of an open stream succeeds *)
          let d := with_file d (Some f) in
          Returns (with_isDevice d (S_ISBLK (f_mode f) || S_ISCHR (f_mode f)),
                   0)
      end
  end.

Section Init.
(** zlib's decoder: the uncompressed data of a gzip stream, if it is one. *)
Variable gunzip : list byte -> option (list byte).

(** The gzip check of [RpFile::init], from the [fread] of the magic number
    to the [gzdopen]. *)
Definition gzip_probe (d : RpFile) (f : FILE) : RpFile :=
  let '(f, gzmagic) := fread f 2 in
  let d := with_file d (Some f) in
  if (length gzmagic =? 2)%nat && (load_le gzmagic =? be16_to_cpu 0x1F8B) then
    (* This is a gzipped file. *)
    let '(f, ret, e) := fseeko f 0 SEEK_END in
    let d := after_call (with_file d (Some f)) ret e in
    let real_sz := ftello f in
    if real_sz >? 10 + 8 then
      let '(f, ret, e) := fseeko f (real_sz - 4) SEEK_SET in
      let d := after_call (with_file d (Some f)) ret e in
      if ret =? 0 then
        let '(f, buf) := fread f 4 in
        let d := with_file d (Some f) in
        let uncomp_sz := le32_to_cpu (load_le buf) in
        if (length buf =? 4)%nat && (uncomp_sz >=? real_sz - (10 + 8)) then
          (* Uncompressed size looks valid. *)
          let d := with_gzsz d uncomp_sz in
          let f := fflush (rewind f) in
          let d := with_file d (Some f) in
          let gzfd_dup := dup (fileno f) in
          if gzfd_dup >=? 0 then with_gzfd d (gzdopen gunzip f gzfd_dup)
          else d
        else d
      else d
    else d
  else d.

(** [RpFile::init]. *)
Definition init (fs : filesystem) (d : RpFile) : outcome RpFile :=
  match reOpenFile fs d with
  | Undefined => Undefined
  | Returns (d, r) =>
      if negb (r =? 0) then Returns d
      else
        match file d with
        | None => Returns d
        | Some f =>
            if mode d =? FM_OPEN_READ_GZ then
              let d := gzip_probe d f in
              match gzfd d, file d with
              | None, Some f =>
                  (* Not a gzipped file. Rewind and flush the file. *)
                  Returns (with_file d (Some (fflush (rewind f))))
              | _, _ => Returns d
              end
            else Returns d
        end
  end.

(** [RpFile::RpFile(filename, mode)]. *)
Definition RpFile_new (fs : filesystem) (filename : string) (mode e : Z)
  : outcome RpFile :=
  init fs (RpFilePrivate filename mode e).

End Init.

(** [RpFile::isOpen]. *)
Definition isOpen (d : RpFile) : bool :=
  match file d with Some _ => true | None => false end.

(** [RpFile::close]. *)
Definition close (d : RpFile) : RpFile :=
  with_file (with_gzfd d None) None.

(** [RpFile::read]: the object, and the bytes stored in the buffer, whose
    number is the return value. *)
Definition read (d : RpFile) (size : N) : RpFile * list byte :=
  match file d with
  | None => (with_lastError d EBADF, [])
  | Some f =>
      match gzfd d with
      | Some gz =>
          let '(gz, iret, buf) := gzread gz size in
          let d := with_gzfd d (Some gz) in
          if iret >=? 0 then (d, buf)
          else (with_lastError d (errno d), [])
      | None =>
          let '(f, buf) := fread f size in
          let d := with_file d (Some f) in
          if ferror f then (with_lastError d (errno d), buf)
          else (d, buf)
      end
  end.

(** [RpFile::write], the [size] bytes at [ptr] given as [buf]. *)
Definition write (d : RpFile) (buf : list byte) : RpFile * N :=
  match file d with
  | None => (with_lastError d EBADF, 0%N)
  | Some f =>
      if Z.land (mode d) FM_WRITE =? 0 then (with_lastError d EBADF, 0%N)
      else
        let '(f, ret, e) := fwrite f buf in
        let d := with_file d (Some f) in
        let d := if (ret <? N.of_nat (length buf))%N then with_errno d e
                 else d in
        if ferror f then (with_lastError d (errno d), ret)
        else (d, ret)
  end.

(** [RpFile::seek]. *)
Definition seek (d : RpFile) (pos : Z) : RpFile * Z :=
  match file d with
  | None => (with_lastError d EBADF, -1)
  | Some f =>
      match gzfd d with
      | Some gz =>
          let '(gz, zret) := gzseek gz pos in
          let d := with_gzfd d (Some gz) in
          if zret >=? 0 then (d, 0)
          else (with_lastError d (- EIO), -1)
      | None =>
          let '(f, ret, e) := fseeko f pos SEEK_SET in
          let d := after_call (with_file d (Some (fflush f))) ret e in
          if negb (ret =? 0) then (with_lastError d (errno d), ret)
          else (d, ret)
      end
  end.

(** [RpFile::tell]. *)
Definition tell (d : RpFile) : RpFile * Z :=
  match file d with
  | None => (with_lastError d EBADF, -1)
  | Some f =>
      match gzfd d with
      | Some gz => (d, gztell gz)
      | None => (d, ftello f)
      end
  end.

(** [RpFile::truncate]. *)
Definition truncate (d : RpFile) (size : Z) : RpFile * Z :=
  match file d with
  | None => (with_lastError d EBADF, -1)
  | Some f =>
      if Z.land (mode d) FM_WRITE =? 0 then (with_lastError d EBADF, -1)
      else if size <? 0 then (with_lastError d EINVAL, -1)
      else
        (* Get the current position. *)
        let pos := ftello f in
        if pos <? 0 then (with_lastError d (errno d), -1)
        else
          (* Truncate the file. *)
          let '(f, ret, e) := ftruncate (fflush f) size in
          let d := after_call (with_file d (Some f)) ret e in
          if negb (ret =? 0) then (with_lastError d (errno d), -1)
          else if pos >? size then
            (* The previous position was past the new file size. *)
            let '(f, ret, e) := fseeko f size SEEK_SET in
            let d := after_call (with_file d (Some f)) ret e in
            if negb (ret =? 0) then (with_lastError d (errno d), -1)
            else (d, 0)
          else (d, 0)
  end.

(** [RpFile::size]. *)
Definition size (d : RpFile) : RpFile * Z :=
  match file d with
  | None => (with_lastError d EBADF, -1)
  | Some f =>
      match gzfd d with
      | Some _ => (d, gzsz d)
      | None =>
          (* Save the current position. *)
          let cur_pos := ftello f in
          (* Seek to the end of the file and record its position. *)
          let '(f, ret, e) := fseeko f 0 SEEK_END in
          let d := after_call (with_file d (Some f)) ret e in
          let end_pos := ftello f in
          (* Go back to the previous position. *)
          let '(f, ret, e) := fseeko f cur_pos SEEK_SET in
          let d := after_call (with_file d (Some f)) ret e in
          (d, end_pos)
      end
  end.

End RpFile.

(** [RpFile] implements the interface. *)
#[export] Instance RpFile_IRpFile : LibRomData.IRpFile RpFile := {
  LibRomData.read := read;
  LibRomData.seek := seek;
  LibRomData.tell := tell
}.

End LibRpBase.

(** Sequential [read] calls with the given sizes: the object after the last
    call, and what the calls returned, in order. *)
Fixpoint read_seq (d : LibRpBase.RpFile) (sizes : list N)
  : LibRpBase.RpFile * list byte :=
  match sizes with
  | [] => (d, [])
  | n :: rest =>
      let '(d, b) := LibRpBase.read d n in
      let '(d, bs) := read_seq d rest in
      (d, b ++ bs)
  end.

Definition total (sizes : list N) : N := fold_right N.add 0%N sizes.

(** The stream that [fopen] gives for "rb". *)
Definition opened_rb (ino : inode) : FILE :=
  mkFILE (i_data ino) 0 (st_mode ino) false false.

(** The object after a successful [reOpenFile] of [ino] for reading. *)
Definition opened_object (name : string) (mode e : Z) (ino : inode)
  : LibRpBase.RpFile :=
  LibRpBase.mkRpFile (Some (opened_rb ino)) name mode
    (S_ISBLK (st_mode ino) || S_ISCHR (st_mode ino)) None (-1) 0 e.

(** ** The sparse disc reader *)

Module SparseDiscReader.

(** What a logical block index resolves to. *)
Inductive PhysicalAddr :=
| Missing
| Empty
| At (offset : Z).

Inductive error := InvalidBlock.

Inductive result (A : Type) : Type :=
| Ok (a : A)
| Err (e : error).
Arguments Ok {A} a.
Arguments Err {A} e.

Definition bind {A B : Type} (r : result A) (k : A -> result B) : result B :=
  match r with
  | Ok a => k a
  | Err e => Err e
  end.

Notation "x <- r ;; k" := (bind r (fun x => k))
  (at level 61, r at next level, right associativity).

(** Modelled from the spec: the block map of a sparse reader.  Neither
    SparseDiscReader.cpp nor WuxReader.cpp is among the sources.  The map
    has a block size and a table with one physical address per logical
    block, 0 standing for a block without storage; [block_count] is the
    number of entries. *)
Record BlockMap := mkBlockMap {
  block_size : N;
  table      : list N
}.

Definition block_count (bm : BlockMap) : N := N.of_nat (length (table bm)).

(** Modelled from the spec: the body of [WuxReader::getPhysBlockAddr] is
    not among the sources.  Its declaration in WuxReader.hpp documents the
    result: the physical address, 0 for an empty block, -1 for an invalid
    block index. *)
Definition getPhysBlockAddr (bm : BlockMap) (blockIdx : N) : Z :=
  match nth_error (table bm) (N.to_nat blockIdx) with
  | Some phys => Z.of_N phys
  | None => -1
  end.

(** Modelled from the spec: [resolve] of the design document, as a reading
    of the address that [getPhysBlockAddr] returns. *)
Definition resolve (bm : BlockMap) (blockIdx : N) : PhysicalAddr :=
  let addr := getPhysBlockAddr bm blockIdx in
  if addr <? 0 then Missing
  else if addr =? 0 then Empty
  else At addr.

(** Modelled from the spec: the logical block indices that a request for
    [[offset, offset+n)] touches, from [first = offset / block_size] to
    [last = (offset+n-1) / block_size]. *)
Definition first_block (bm : BlockMap) (offset : N) : N :=
  (offset / block_size bm)%N.
Definition last_block (bm : BlockMap) (offset n : N) : N :=
  ((offset + n - 1) / block_size bm)%N.
Definition touched (bm : BlockMap) (offset n : N) : list N :=
  let first := first_block bm offset in
  let last := last_block bm offset n in
  map (fun k => (first + N.of_nat k)%N)
      (seq 0 (N.to_nat (last - first + 1))).

(** A read issued to the backing store: physical offset and length. *)
Definition access : Type := N * N.

(** Modelled from the spec: the part of one block in a request.  A missing
    block fails the read; an empty block gives zeros and no access to the
    backing store; a stored block gives the needed part of it, read at the
    physical address plus the start within the block. *)
Definition read_block (bm : BlockMap) (backing : list byte) (offset n : N)
  (blockIdx : N) : result (list byte * list access) :=
  let blk := (blockIdx * block_size bm)%N in
  let lo := N.max offset blk in
  let hi := N.min (offset + n) (blk + block_size bm) in
  let len := (hi - lo)%N in
  match resolve bm blockIdx with
  | Missing => Err InvalidBlock
  | Empty => Ok (zeros (N.to_nat len), [])
  | At phys =>
      let src := (Z.to_N phys + (lo - blk))%N in
      Ok (slice (N.to_nat src) (N.to_nat len) backing, [(src, len)])
  end.

Fixpoint read_blocks (bm : BlockMap) (backing : list byte) (offset n : N)
  (blocks : list N) : result (list byte * list access) :=
  match blocks with
  | [] => Ok ([], [])
  | blockIdx :: rest =>
      r <- read_block bm backing offset n blockIdx ;;
      rs <- read_blocks bm backing offset n rest ;;
      Ok (fst r ++ fst rs, snd r ++ snd rs)
  end.

(** Modelled from the spec: the logical size, [block_count * block_size]. *)
Definition disc_size (bm : BlockMap) : N :=
  (block_count bm * block_size bm)%N.

(** Modelled from the spec: a read of [n] bytes at logical [offset]: the
    bytes, and the reads issued to the backing store.  The request is cut
    at the declared logical size: a read that starts at or past it returns
    zero bytes, and one that crosses it is short; neither is an error
    (sections 4.4 and 7).  The blocks that the request, so cut, touches
    are resolved and read in order. *)
Definition read (bm : BlockMap) (backing : list byte) (offset n : N)
  : result (list byte * list access) :=
  if (disc_size bm <=? offset)%N then Ok ([], [])
  else
    let n := N.min n (disc_size bm - offset) in
    if (n =? 0)%N then Ok ([], [])
    else read_blocks bm backing offset n (touched bm offset n).

End SparseDiscReader.



(** ** DMG.cpp: the Game Boy ROM header *)

Module DMG.

(** [ARRAY_SIZE] of an array, given as the list of its elements. *)
Definition ARRAY_SIZE {A : Type} (a : list A) : Z := Z.of_nat (length a).

(** [enum DMG_System]. *)
Definition DMG_SYSTEM_DMG : Z := Z.shiftl 1 0.
Definition DMG_SYSTEM_SGB : Z := Z.shiftl 1 1.
Definition DMG_SYSTEM_CGB : Z := Z.shiftl 1 2.

(** [enum DMG_Feature]. *)
Definition DMG_FEATURE_RAM     : Z := Z.shiftl 1 0.
Definition DMG_FEATURE_BATTERY : Z := Z.shiftl 1 1.
Definition DMG_FEATURE_TIMER   : Z := Z.shiftl 1 2.
Definition DMG_FEATURE_RUMBLE  : Z := Z.shiftl 1 3.

(** [enum DMG_Hardware]. *)
Definition DMG_HW_UNK    : Z := 0.
Definition DMG_HW_ROM    : Z := 1.
Definition DMG_HW_MBC1   : Z := 2.
Definition DMG_HW_MBC2   : Z := 3.
Definition DMG_HW_MBC3   : Z := 4.
Definition DMG_HW_MBC4   : Z := 5.
Definition DMG_HW_MBC5   : Z := 6.
Definition DMG_HW_MBC6   : Z := 7.
Definition DMG_HW_MBC7   : Z := 8.
Definition DMG_HW_MMM01  : Z := 9.
Definition DMG_HW_HUC1   : Z := 10.
Definition DMG_HW_HUC3   : Z := 11.
Definition DMG_HW_TAMA5  : Z := 12.
Definition DMG_HW_CAMERA : Z := 13.

Definition dmg_hardware_names : list string :=
  ["Unknown"; "ROM"; "MBC1"; "MBC2"; "MBC3"; "MBC4"; "MBC5"; "MBC6"; "MBC7";
   "MMM01"; "HuC1"; "HuC3"; "TAMA5"; "POCKET CAMERA"]%string.

Record dmg_cart_type := mk_cart_type {
  hardware : Z;
  features : Z
}.

Definition dmg_cart_types_start : list dmg_cart_type :=
  [mk_cart_type DMG_HW_ROM 0;
   mk_cart_type DMG_HW_MBC1 0;
   mk_cart_type DMG_HW_MBC1 DMG_FEATURE_RAM;
   mk_cart_type DMG_HW_MBC1 (Z.lor DMG_FEATURE_RAM DMG_FEATURE_BATTERY);
   mk_cart_type DMG_HW_UNK 0;
   mk_cart_type DMG_HW_MBC2 0;
   mk_cart_type DMG_HW_MBC2 DMG_FEATURE_BATTERY;
   mk_cart_type DMG_HW_UNK 0;
   mk_cart_type DMG_HW_ROM DMG_FEATURE_RAM;
   mk_cart_type DMG_HW_ROM (Z.lor DMG_FEATURE_RAM DMG_FEATURE_BATTERY);
   mk_cart_type DMG_HW_UNK 0;
   mk_cart_type DMG_HW_MMM01 0;
   mk_cart_type DMG_HW_MMM01 DMG_FEATURE_RAM;
   mk_cart_type DMG_HW_MMM01 (Z.lor DMG_FEATURE_RAM DMG_FEATURE_BATTERY);
   mk_cart_type DMG_HW_UNK 0;
   mk_cart_type DMG_HW_MBC3 (Z.lor DMG_FEATURE_TIMER DMG_FEATURE_BATTERY);
   mk_cart_type DMG_HW_MBC3
     (Z.lor (Z.lor DMG_FEATURE_TIMER DMG_FEATURE_RAM) DMG_FEATURE_BATTERY);
   mk_cart_type DMG_HW_MBC3 0;
   mk_cart_type DMG_HW_MBC3 DMG_FEATURE_RAM;
   mk_cart_type DMG_HW_MBC3 (Z.lor DMG_FEATURE_RAM DMG_FEATURE_BATTERY);
   mk_cart_type DMG_HW_UNK 0;
   mk_cart_type DMG_HW_MBC4 0;
   mk_cart_type DMG_HW_MBC4 DMG_FEATURE_RAM;
   mk_cart_type DMG_HW_MBC4 (Z.lor DMG_FEATURE_RAM DMG_FEATURE_BATTERY);
   mk_cart_type DMG_HW_UNK 0;
   mk_cart_type DMG_HW_MBC5 0;
   mk_cart_type DMG_HW_MBC5 DMG_FEATURE_RAM;
   mk_cart_type DMG_HW_MBC5 (Z.lor DMG_FEATURE_RAM DMG_FEATURE_BATTERY);
   mk_cart_type DMG_HW_MBC5 DMG_FEATURE_RUMBLE;
   mk_cart_type DMG_HW_MBC5 (Z.lor DMG_FEATURE_RUMBLE DMG_FEATURE_RAM);
   mk_cart_type DMG_HW_MBC5
     (Z.lor (Z.lor DMG_FEATURE_RUMBLE DMG_FEATURE_RAM) DMG_FEATURE_BATTERY);
   mk_cart_type DMG_HW_UNK 0;
   mk_cart_type DMG_HW_MBC6 0;
   mk_cart_type DMG_HW_UNK 0;
   mk_cart_type DMG_HW_MBC7
     (Z.lor (Z.lor DMG_FEATURE_RUMBLE DMG_FEATURE_RAM) DMG_FEATURE_BATTERY)].

Definition dmg_cart_types_end : list dmg_cart_type :=
  [mk_cart_type DMG_HW_CAMERA 0;
   mk_cart_type DMG_HW_TAMA5 0;
   mk_cart_type DMG_HW_HUC3 0;
   mk_cart_type DMG_HW_HUC1 (Z.lor DMG_FEATURE_RAM DMG_FEATURE_BATTERY)].

(** [DMGPrivate::CartType]; the [uint8_t] argument is a byte. *)
Definition CartType (type : byte) : dmg_cart_type :=
  let unk := mk_cart_type DMG_HW_UNK 0 in
  let t := byte_val type in
  if t <? ARRAY_SIZE dmg_cart_types_start then
    nth (Z.to_nat t) dmg_cart_types_start unk
  else
    let end_offset := 0x100 - ARRAY_SIZE dmg_cart_types_end in
    if t >=? end_offset then
      nth (Z.to_nat (t - end_offset)) dmg_cart_types_end unk
    else unk.

(** [DMGPrivate::RomSize]. *)
Definition RomSize (type : byte) : Z :=
  let rom_size := [32; 64; 128; 256; 512; 1024; 2048; 4096] in
  let rom_size_52 := [1152; 1280; 1536] in
  let t := byte_val type in
  if t <? ARRAY_SIZE rom_size then nth (Z.to_nat t) rom_size 0
  else if (t >=? 0x52) && (t <? 0x52 + ARRAY_SIZE rom_size_52) then
    nth (Z.to_nat (t - 0x52)) rom_size_52 0
  else -1.

(** The "ROM Size" field of [DMG::loadFieldData]: which text is shown,
    with the numbers that are printed. *)
Inductive size_text :=
| SizeUnknown
| SizeKiB (kib : Z)
| SizeKiBBanks (kib banks : Z).

Definition rom_size_field (rom_size_code : byte) : size_text :=
  let rom_size := RomSize rom_size_code in
  if rom_size <? 0 then SizeUnknown
  else if rom_size >? 32 then
    let banks := rom_size / 16 in
    SizeKiBBanks rom_size banks
  else SizeKiB rom_size.

(** The header checksum of [DMG::loadFieldData].  [romHeader8] is the ROM
    header as bytes, from ROM address 0x100 on; [checksum] is a
    [uint8_t]. *)
Definition header_checksum_of (romHeader8 : list byte) : Z :=
  fold_left
    (fun checksum i => (checksum - byte_val (nth i romHeader8 x00)) mod 256)
    (seq 0x0034 (0x004D - 0x0034))
    0xE7.

(** The test on the checksum: [true] for "(valid)". *)
Definition header_checksum_valid (romHeader8 : list byte)
  (header_checksum : byte) : bool :=
  header_checksum_of romHeader8 - byte_val header_checksum =? 0.

(** The "System" bit field of [DMG::loadFieldData], from the fields
    [cgbflag], [old_publisher_code] and [sgbflag] of the header. *)
Definition dmg_system (cgbflag old_publisher_code sgbflag : byte) : Z :=
  let dmg_system := 0 in
  let dmg_system :=
    if negb (Z.land (byte_val cgbflag) 0x80 =? 0) then
      (* Game supports CGB. *)
      let dmg_system := DMG_SYSTEM_CGB in
      if Z.land (byte_val cgbflag) 0x40 =? 0 then
        (* Not CGB exclusive. *)
        Z.lor dmg_system DMG_SYSTEM_DMG
      else dmg_system
    else
      (* Game does not support CGB. *)
      Z.lor dmg_system DMG_SYSTEM_DMG in
  if (byte_val old_publisher_code =? 0x33) && (byte_val sgbflag =? 0x03) then
    (* Game supports SGB. *)
    Z.lor dmg_system DMG_SYSTEM_SGB
  else dmg_system.

(** The tab name that [DMG::loadFieldData] sets from the bit field. *)
Definition tab_name (dmg_system : Z) : string :=
  if negb (Z.land dmg_system DMG_SYSTEM_CGB =? 0) then "CGB"
  else if negb (Z.land dmg_system DMG_SYSTEM_SGB =? 0) then "SGB"
  else "DMG".

End DMG.

(** The sum of the values of some bytes. *)
Definition byte_sum (l : list byte) : Z :=
  fold_right (fun b acc => byte_val b + acc) 0 l.

(** ** TGA.cpp: the run-length decoder of [TGAPrivate::loadTGAImage] *)

Module TGA.

(** The bytes that the [switch (bytespp)] of a run-length packet copies
    for one pixel: [bytespp] of them for 1 to 4, none otherwise. *)
Definition pixel_bytes (bytespp : nat) : nat :=
  match bytespp with
  | 1 | 2 | 3 | 4 => bytespp
  | _ => 0
  end%nat.

(** The packet loop.  [pSrc] is the source from the read pointer to
    [pSrcEnd], [room] is [pDestEnd - pDest]; the result is what the loop
    stores from [pDest] on.  A payload that the source does not hold to
    its end makes the loop read beyond [pSrcEnd]: [Undefined].  Every
    round consumes the packet byte, so [fuel] rounds are enough for a
    source of [fuel] bytes. *)
Fixpoint rle_loop (fuel bytespp : nat) (pSrc : list byte) (room : nat)
  : outcome (list byte) :=
  match fuel with
  | O => Returns []
  | S fuel =>
      match pSrc with
      | [] => Returns []
      | pkt :: pSrc =>
          if (room =? 0)%nat then Returns []
          else
            (* Low 7 bits indicate number of pixels. *)
            let count := (Z.to_nat (Z.land (byte_val pkt) 0x7F) + 1)%nat in
            if (room <? count * bytespp)%nat then
              (* Buffer overflow! *)
              Returns []
            else if negb (Z.land (byte_val pkt) 0x80 =? 0) then
              (* One pixel is duplicated [count] number of times. *)
              if (length pSrc <? bytespp)%nat then Undefined
              else
                let pixel := firstn (pixel_bytes bytespp) pSrc in
                match rle_loop fuel bytespp (skipn bytespp pSrc)
                               (room - count * pixel_bytes bytespp) with
                | Returns rest => Returns (concat (repeat pixel count) ++ rest)
                | Undefined => Undefined
                end
            else
              (* [count] number of pixels follow. *)
              let cpysize := (count * bytespp)%nat in
              if (length pSrc <? cpysize)%nat then Undefined
              else
                match rle_loop fuel bytespp (skipn cpysize pSrc)
                               (room - cpysize) with
                | Returns rest => Returns (firstn cpysize pSrc ++ rest)
                | Undefined => Undefined
                end
      end
  end.

(** The decompression of [loadTGAImage]: the packet loop over [rle_data]
    into a buffer of [img_size] bytes, the rest of which is cleared. *)
Definition rle_decode (bytespp img_size : nat) (rle_data : list byte)
  : outcome (list byte) :=
  match rle_loop (length rle_data) bytespp rle_data img_size with
  | Returns stored =>
      Returns (stored ++ zeros (img_size - length stored))
  | Undefined => Undefined
  end.

(** The packet format, as the comments of the loop describe it:
    [packets bytespp src img] says that [src] is a sequence of whole
    packets that stand for the pixel data [img].  A packet byte of 0x80 or
    more announces one pixel, to be repeated as often as the low seven
    bits say, plus one; a smaller packet byte announces that many pixels,
    plus one, given one after the other. *)
Inductive packets (bytespp : nat) : list byte -> list byte -> Prop :=
| packets_end : packets bytespp [] []
| packets_run (pkt : byte) (pixel src img : list byte) :
    0x80 <= byte_val pkt ->
    length pixel = bytespp ->
    packets bytespp src img ->
    packets bytespp (pkt :: pixel ++ src)
      (concat (repeat pixel (Z.to_nat (byte_val pkt - 0x80) + 1)) ++ img)
| packets_raw (pkt : byte) (pixels src img : list byte) :
    byte_val pkt < 0x80 ->
    length pixels = ((Z.to_nat (byte_val pkt) + 1) * bytespp)%nat ->
    packets bytespp src img ->
    packets bytespp (pkt :: pixels ++ src) (pixels ++ img).

(** The colour map of [loadTGAImage], for [color_map_type >= 1]: [None]
    for "Too many colors", and else the size of the palette buffer, the
    index in [pal_data] at which the [read] stores, and the number of
    bytes it asks for.  [idx0] and [len] are the [uint16_t] fields of the
    header, [bpp] is its [uint8_t] field. *)
Definition cmap_bytespp (bpp : byte) : Z :=
  if byte_val bpp =? 15 then 2 else byte_val bpp / 8.

Definition palette_read (idx0 len : Z) (bpp : byte) : option (Z * Z * Z) :=
  if idx0 + len >? 256 then None
  else
    let pal_size := 256 * cmap_bytespp bpp in
    let read_size := len * cmap_bytespp bpp in
    Some (pal_size, idx0, read_size).

(** The number of pixels that a packet byte announces, and the number of
    source bytes that follow the packet byte. *)
Definition packet_count (pkt : byte) : nat :=
  (Z.to_nat (Z.land (byte_val pkt) 0x7F) + 1)%nat.

Definition packet_payload (bytespp : nat) (pkt : byte) : nat :=
  if negb (Z.land (byte_val pkt) 0x80 =? 0) then bytespp
  else (packet_count pkt * bytespp)%nat.

End TGA.

(** What an open object serves to [read]: the uncompressed data of a
    decompressing stream, the file's bytes of a plain one. *)
Definition served_data (d : LibRpBase.RpFile) : option (list byte) :=
  match LibRpBase.file d, LibRpBase.gzfd d with
  | Some _, Some gz => gz_out gz
  | Some f, None => Some (f_data f)
  | None, _ => None
  end.

(** No stream error is pending on the decompressing stream, if there is
    one. *)
Definition gz_clean (d : LibRpBase.RpFile) : bool :=
  match LibRpBase.gzfd d with
  | Some gz => negb (gz_err gz)
  | None => true
  end.

(** The offset in the uncompressed data [out] at which the next [gzread]
    of a stream starts: the position, moved on by a pending seek request
    as far as the data goes. *)
Definition gz_next (gz : gzFile) (out : list byte) : N :=
  fst (fst (gz_skip (N.of_nat (length out)) (gz_pos gz) (gz_have gz)
                    (gz_look gz) (gz_seek gz))).

(** The bytes that a stream has handed out or holds in its output buffer
    are bytes of the uncompressed data.  [gzdopen] gives such a stream,
    and [gzread] and [gzseek] keep it so. *)
Definition gz_wf (gz : gzFile) : bool :=
  match gz_out gz with
  | Some out => (gz_pos gz + gz_have gz <=? N.of_nat (length out))%N
  | None => true
  end.

Definition stream_wf (d : LibRpBase.RpFile) : bool :=
  match LibRpBase.gzfd d with
  | Some gz => gz_wf gz
  | None => true
  end.

(** ** A gzip decoder for the concrete inputs

    zlib's decoder is part of the environment, and the model takes it as
    a parameter.  Where the model is run on a file, this decoder stands
    in: it reads a gzip file of one member without optional header fields
    (RFC 1952) whose deflate blocks are stored or use the fixed Huffman
    code (RFC 1951).  On a file that is not of this kind it gives
    [None]. *)

Module Gunzip.

(** The bits of a byte sequence in the order in which a deflate stream is
    read: from the least significant bit of each byte on. *)
Definition bits_of (data : list byte) : list bool :=
  flat_map (fun b => map (fun i => Z.testbit (byte_val b) (Z.of_nat i))
                         (seq 0 8)) data.

(** A number of [n] bits, least significant bit first. *)
Fixpoint take_bits (n : nat) (bs : list bool) : option (Z * list bool) :=
  match n with
  | O => Some (0, bs)
  | S n =>
      match bs with
      | [] => None
      | b :: bs =>
          match take_bits n bs with
          | Some (v, rest) => Some (Z.b2z b + 2 * v, rest)
          | None => None
          end
      end
  end.

(** A Huffman code of [n] bits, most significant bit first. *)
Fixpoint take_code (n : nat) (acc : Z) (bs : list bool)
  : option (Z * list bool) :=
  match n with
  | O => Some (acc, bs)
  | S n =>
      match bs with
      | [] => None
      | b :: bs => take_code n (2 * acc + Z.b2z b) bs
      end
  end.

(** A literal/length symbol in the fixed code (RFC 1951, 3.2.6). *)
Definition fixed_symbol (bs : list bool) : option (Z * list bool) :=
  match take_code 7 0 bs with
  | None => None
  | Some (c7, rest7) =>
      if c7 <=? 23 then Some (256 + c7, rest7)
      else
        match take_code 1 c7 rest7 with
        | None => None
        | Some (c8, rest8) =>
            if c8 <=? 191 then Some (c8 - 48, rest8)
            else if c8 <=? 199 then Some (280 + (c8 - 192), rest8)
            else
              match take_code 1 c8 rest8 with
              | None => None
              | Some (c9, rest9) => Some (144 + (c9 - 400), rest9)
              end
        end
  end.

(** The length that a length symbol and its extra bits stand for. *)
Definition match_length (sym : Z) (bs : list bool) : option (Z * list bool) :=
  if sym <=? 264 then Some (sym - 254, bs)
  else if sym =? 285 then Some (258, bs)
  else if 285 <? sym then None
  else
    let k := sym - 261 in
    let e := k / 4 in
    match take_bits (Z.to_nat e) bs with
    | None => None
    | Some (x, rest) => Some (3 + Z.shiftl (4 + k mod 4) e + x, rest)
    end.

(** A distance: a code of five bits and its extra bits. *)
Definition match_distance (bs : list bool) : option (Z * list bool) :=
  match take_code 5 0 bs with
  | None => None
  | Some (c, rest) =>
      if 29 <? c then None
      else if c <? 4 then Some (c + 1, rest)
      else
        let e := c / 2 - 1 in
        match take_bits (Z.to_nat e) rest with
        | None => None
        | Some (x, rest) => Some (1 + Z.shiftl (2 + c mod 2) e + x, rest)
        end
  end.

(** [len] bytes copied from [dist] bytes back; [rout] is the output so far,
    last byte first. *)
Fixpoint copy_match (len : nat) (dist : nat) (rout : list byte)
  : option (list byte) :=
  match len with
  | O => Some rout
  | S len =>
      match nth_error rout (dist - 1) with
      | None => None
      | Some b => copy_match len dist (b :: rout)
      end
  end.

(** The symbols of a block in the fixed code, up to its end-of-block. *)
Fixpoint fixed_block (fuel : nat) (bs : list bool) (rout : list byte)
  : option (list bool * list byte) :=
  match fuel with
  | O => None
  | S fuel =>
      match fixed_symbol bs with
      | None => None
      | Some (sym, rest) =>
          if sym <? 256 then
            match Byte.of_N (Z.to_N sym) with
            | Some b => fixed_block fuel rest (b :: rout)
            | None => None
            end
          else if sym =? 256 then Some (rest, rout)
          else
            match match_length sym rest with
            | None => None
            | Some (len, rest) =>
                match match_distance rest with
                | None => None
                | Some (dist, rest) =>
                    if dist =? 0 then None
                    else
                      match copy_match (Z.to_nat len) (Z.to_nat dist) rout with
                      | None => None
                      | Some rout => fixed_block fuel rest rout
                      end
                end
            end
      end
  end.

(** The rest of the bits from the next byte boundary on. *)
Definition align (bs : list bool) : list bool :=
  skipn (length bs mod 8) bs.

Fixpoint take_bytes (n : nat) (bs : list bool) (rout : list byte)
  : option (list bool * list byte) :=
  match n with
  | O => Some (bs, rout)
  | S n =>
      match take_bits 8 bs with
      | None => None
      | Some (v, rest) =>
          match Byte.of_N (Z.to_N v) with
          | Some b => take_bytes n rest (b :: rout)
          | None => None
          end
      end
  end.

(** A stored block (RFC 1951, 3.2.4). *)
Definition stored_block (bs : list bool) (rout : list byte)
  : option (list bool * list byte) :=
  match take_bits 16 (align bs) with
  | None => None
  | Some (len, rest) =>
      match take_bits 16 rest with
      | None => None
      | Some (nlen, rest) =>
          if len + nlen =? 65535 then take_bytes (Z.to_nat len) rest rout
          else None
      end
  end.

(** The blocks of a deflate stream; a block with dynamic codes is not
    decoded. *)
Fixpoint blocks (fuel : nat) (bs : list bool) (rout : list byte)
  : option (list bool * list byte) :=
  match fuel with
  | O => None
  | S fuel =>
      match take_bits 1 bs with
      | None => None
      | Some (bfinal, rest) =>
          match take_bits 2 rest with
          | None => None
          | Some (btype, rest) =>
              let block :=
                if btype =? 0 then stored_block rest rout
                else if btype =? 1 then fixed_block (length rest) rest rout
                else None in
              match block with
              | None => None
              | Some (rest, rout) =>
                  if bfinal =? 1 then Some (rest, rout)
                  else blocks fuel rest rout
              end
          end
      end
  end.

(** CRC-32 (RFC 1952, section 8). *)
Fixpoint crc_shift (n : nat) (c : Z) : Z :=
  match n with
  | O => c
  | S n =>
      crc_shift n (if Z.odd c then Z.lxor (Z.shiftr c 1) 0xEDB88320
                   else Z.shiftr c 1)
  end.

Definition crc32 (data : list byte) : Z :=
  Z.lxor (fold_left (fun c b => crc_shift 8 (Z.lxor c (byte_val b)))
                    data 0xFFFFFFFF)
         0xFFFFFFFF.

(** A gzip file of one member without optional header fields
    (RFC 1952): ten header bytes, the deflate stream, CRC-32 and ISIZE. *)
Definition decode (data : list byte) : option (list byte) :=
  match data with
  | x1f :: x8b :: x08 :: x00 :: _ :: _ :: _ :: _ :: _ :: _ :: body =>
      match blocks (length body) (bits_of body) [] with
      | None => None
      | Some (rest, rout) =>
          let out := rev rout in
          match take_bits 32 (align rest) with
          | None => None
          | Some (crc, rest) =>
              match take_bits 32 rest with
              | Some (isize, []) =>
                  if (crc =? crc32 out)
                     && (isize =? Z.of_nat (length out) mod 2 ^ 32)
                  then Some out else None
              | _ => None
              end
          end
      end
  | _ => None
  end.

End Gunzip.

(** * Concrete inputs

    The values on which the model is run below. *)

Import LibRpBase.

(** The enumerators with the values 0, 1, 2, 3 and 4 for read, write,
    create, their combinations and the decompression flag. *)
#[local] Instance FileMode_values : FileMode := {
  FM_READ         := 0;
  FM_WRITE        := 1;
  FM_CREATE       := 2;
  FM_OPEN_READ    := 0;
  FM_OPEN_WRITE   := 1;
  FM_CREATE_WRITE := 3;
  FM_MODE_MASK    := 3;
  FM_OPEN_READ_GZ := 4
}.


(** A gzip file of 35 bytes, as [gzip] writes it for the 25 bytes of
    [sample_text]: the header, one deflate block in the fixed Huffman
    code, the CRC-32 and the length 25. *)
Definition sample_gz : list byte :=
  [x1f; x8b; x08; x00; x00; x00; x00; x00; x00; x03;
   xcb; x48; xcd; xc9; xc9; xd7; x51; xc8; x40; xa2; x14; xca; xf3; x8b;
   x72; x52; x00;
   x96; x65; x6d; xfd; x19; x00; x00; x00].

(** "hello, hello, hello world". *)
Definition sample_text : list byte :=
  [x68; x65; x6c; x6c; x6f; x2c; x20; x68; x65; x6c; x6c; x6f; x2c; x20;
   x68; x65; x6c; x6c; x6f; x20; x77; x6f; x72; x6c; x64].

(** A three-byte file. *)
Definition sample_rom : list byte := [x41; x42; x43].

Definition sample_fs : filesystem :=
  fun name =>
    if String.eqb name "rom.gz" then Some (mkInode S_IFREG sample_gz)
    else if String.eqb name "rom.bin" then Some (mkInode S_IFREG sample_rom)
    else None.

(** The decoder for the runs: zlib's decoder is a parameter of the model,
    and [Gunzip.decode] takes its place on the files of [sample_fs]. *)
Definition sample_gunzip : list byte -> option (list byte) := Gunzip.decode.

(** "rom.bin" as [FM_OPEN_WRITE] leaves it, at position [pos]. *)
Definition sample_rw (pos : N) : RpFile :=
  mkRpFile (Some (mkFILE sample_rom pos S_IFREG true false))
           "rom.bin" FM_OPEN_WRITE false None (-1) 0 0.

(** "rom.bin" as [FM_OPEN_READ] leaves it. *)
Definition sample_ro : RpFile :=
  opened_object "rom.bin" FM_OPEN_READ 0 (mkInode S_IFREG sample_rom).

(** The object of the constructor for a file that does not exist. *)
Definition sample_absent : RpFile := RpFilePrivate "none.bin" FM_OPEN_READ 0.

(** A backing store of three 512-byte blocks, filled with 0x11, 0x22 and
    0x33, and a block map over it. *)
Definition sample_backing : list byte :=
  repeat x11 512 ++ repeat x22 512 ++ repeat x33 512.

Definition sample_map : SparseDiscReader.BlockMap :=
  SparseDiscReader.mkBlockMap 512 [512%N; 0%N; 1024%N].

(** "rom.gz" as [FM_OPEN_READ_GZ] leaves it, at position 0 of the
    uncompressed data. *)
Definition sample_gz_open : RpFile :=
  with_gzfd
    (with_gzsz (opened_object "rom.gz" FM_OPEN_READ_GZ 0
                              (mkInode S_IFREG sample_gz)) 25)
    (Some (mkGz (Some sample_text) 0 0 0 true false)).

(** A ROM header, from ROM address 0x100 on, with the title "TETRIS", the
    old publisher code 0x01 and the stored header checksum 0x0B. *)
Definition sample_header : list byte :=
  zeros 0x34
  ++ [x54; x45; x54; x52; x49; x53] ++ zeros 10
  ++ [x00; x00; x00; x00; x00; x00; x00; x01; x00; x0b; x89; xb5].

(** Packets for one-byte pixels: 0xAA twice, then the two pixels 1
    and 2. *)
Definition sample_packets : list byte := [x81; xaa; x01; x01; x02].

Definition sample_pixels : list byte := [xaa; xaa; x01; x02].

(** * Properties *)

(** ** Buffers *)

Lemma firstn_chunks (l : list byte) (n m : nat) :
  firstn n l ++ firstn m (skipn (length (firstn n l)) l) = firstn (n + m) l.
Proof.
  revert l; induction n as [|n IH]; intros l.
  - reflexivity.
  - destruct l as [|a l]; simpl.
    + now rewrite firstn_nil.
    + f_equal. apply IH.
Qed.

Lemma slice_chunks (l : list byte) (p n m : nat) :
  slice p n l ++ slice (p + length (slice p n l)) m l = slice p (n + m) l.
Proof.
  unfold slice.
  rewrite (Nat.add_comm p), <- skipn_skipn.
  apply firstn_chunks.
Qed.

Lemma slice_length_le (l : list byte) (p n : nat) :
  (length (slice p n l) <= n)%nat.
Proof. unfold slice. apply firstn_le_length. Qed.

Lemma slice_full (l : list byte) (p n : nat) :
  (p + n <= length l)%nat -> length (slice p n l) = n.
Proof.
  intros Hle. unfold slice.
  rewrite firstn_length_le; [reflexivity|].
  rewrite length_skipn. lia.
Qed.

Lemma slice_length (l : list byte) (p n : nat) :
  length (slice p n l) = Nat.min n (length l - p).
Proof. unfold slice. now rewrite length_firstn, length_skipn. Qed.

Lemma slice_past_end (l : list byte) (p n : nat) :
  (length l <= p)%nat -> slice p n l = [].
Proof.
  intros Hp. apply length_zero_iff_nil. rewrite slice_length. lia.
Qed.

Lemma zeros_length (n : nat) : length (zeros n) = n.
Proof. apply repeat_length. Qed.

(** ** The object records *)

Lemma with_file_same (d : RpFile) (f : FILE) :
  file d = Some f -> with_file d (Some f) = d.
Proof. destruct d; simpl; intros ->; reflexivity. Qed.

Lemma set_pos_same (f : FILE) : set_pos f (f_pos f) = f.
Proof. destruct f; reflexivity. Qed.

Lemma set_pos_set_pos (f : FILE) (p q : N) :
  set_pos (set_pos f p) q = set_pos f q.
Proof. reflexivity. Qed.

Lemma fseeko_end (f : FILE) :
  fseeko f 0 SEEK_END = (set_pos f (N.of_nat (length (f_data f))), 0, 0).
Proof.
  unfold fseeko.
  destruct (Z.ltb_spec (Z.of_nat (length (f_data f)) + 0) 0) as [E|_]; [lia|].
  do 3 f_equal. lia.
Qed.

Lemma fseeko_set (f : FILE) (p : N) :
  fseeko f (Z.of_N p) SEEK_SET = (set_pos f p, 0, 0).
Proof.
  unfold fseeko.
  destruct (Z.ltb_spec (Z.of_N p) 0) as [E|_]; [lia|].
  now rewrite N2Z.id.
Qed.

(** [size] on a plain stream: the length of the file, and the object as it
    was. *)
Lemma size_plain (d : RpFile) (f : FILE) :
  file d = Some f -> gzfd d = None ->
  size d = (d, Z.of_nat (length (f_data f))).
Proof.
  intros Hf Hg. unfold size. rewrite Hf, Hg.
  rewrite fseeko_end. unfold ftello at 1.
  simpl. rewrite fseeko_set. unfold after_call, ftello; simpl.
  rewrite set_pos_set_pos, set_pos_same.
  f_equal.
  - destruct d; simpl in *; subst; reflexivity.
  - lia.
Qed.

(** [size] on a decompressing stream: the cached size. *)
Lemma size_gz (d : RpFile) (f : FILE) (gz : gzFile) :
  file d = Some f -> gzfd d = Some gz -> size d = (d, gzsz d).
Proof. intros Hf Hg. unfold size. now rewrite Hf, Hg. Qed.

Lemma size_with_lastError (d : RpFile) (f : FILE) (e : Z) :
  file d = Some f -> snd (size (with_lastError d e)) = snd (size d).
Proof.
  intros Hf.
  destruct (gzfd d) as [gz|] eqn:Hg.
  - rewrite (size_gz d f gz Hf Hg), (size_gz (with_lastError d e) f gz); auto.
  - rewrite (size_plain d f Hf Hg), (size_plain (with_lastError d e) f); auto.
Qed.

(** ** The magic number *)

Lemma byte_val_inj (a b : byte) : byte_val a = byte_val b -> a = b.
Proof.
  unfold byte_val. intros H. apply N2Z.inj in H.
  assert (Ha : Byte.of_N (Byte.to_N a) = Some a) by apply Byte.of_to_N.
  rewrite H, Byte.of_to_N in Ha. congruence.
Qed.

Lemma byte_val_range (b : byte) : 0 <= byte_val b <= 255.
Proof.
  unfold byte_val. pose proof (Byte.to_N_bounded b). lia.
Qed.

(** The test of [RpFile::init] on the two bytes read holds exactly for the
    bytes 1F 8B. *)
Lemma gzmagic_test (gzmagic : list byte) :
  ((length gzmagic =? 2)%nat && (load_le gzmagic =? be16_to_cpu 0x1F8B)) = true
  <-> gzmagic = [x1f; x8b].
Proof.
  split; [|intros ->; reflexivity].
  intros H. apply andb_prop in H. destruct H as [Hlen Hval].
  apply Nat.eqb_eq in Hlen. apply Z.eqb_eq in Hval.
  destruct gzmagic as [|b0 [|b1 [|b2 rest]]]; try discriminate.
  change (be16_to_cpu 0x1F8B) with 35615 in Hval. cbn [load_le] in Hval.
  pose proof (byte_val_range b0) as R0.
  pose proof (byte_val_range b1) as R1.
  assert (E0 : byte_val b0 = byte_val x1f)
    by (change (byte_val x1f) with 31; lia).
  assert (E1 : byte_val b1 = byte_val x8b)
    by (change (byte_val x8b) with 139; lia).
  apply byte_val_inj in E0. apply byte_val_inj in E1. now subst.
Qed.

(** ** ungetc over any implementation of the interface *)

Section AnyFile.
Context {F : Type} `{LibRomData.IRpFile F}.

(** The character plays no part: there is no push-back buffer. *)
Lemma ungetc_ignores_character (this : F) (c c' : Z) :
  LibRomData.ungetc this c = LibRomData.ungetc this c'.
Proof. reflexivity. Qed.

Lemma ungetc_at_start (this : F) (c : Z) :
  snd (LibRomData.tell this) <= 0 ->
  LibRomData.ungetc this c = (fst (LibRomData.tell this), -1).
Proof.
  intros Hpos. unfold LibRomData.ungetc.
  destruct (LibRomData.tell this) as [this' pos]. simpl in *.
  destruct (Z.leb_spec pos 0); [reflexivity | lia].
Qed.

Lemma ungetc_moves_back (this : F) (c : Z) :
  0 < snd (LibRomData.tell this) ->
  LibRomData.ungetc this c
  = LibRomData.seek (fst (LibRomData.tell this))
                    (snd (LibRomData.tell this) - 1).
Proof.
  intros Hpos. unfold LibRomData.ungetc.
  destruct (LibRomData.tell this) as [this' pos]. simpl in *.
  destruct (Z.leb_spec pos 0); [lia | reflexivity].
Qed.

End AnyFile.

Section RpFileProperties.
Context {fm : FileMode}.

(** ** Operations on a null handle *)

(** C9. On an object whose [file] is null (the open failed, or [close] was
    called) every operation returns its failure value, 0 bytes for [read]
    and [write], -1 for [seek], [truncate], [tell] and [size], and changes
    nothing in the object but [m_lastError], which becomes [EBADF]; [close]
    leaves the handle null. *)
Theorem null_handle_operations_fail
  (d : RpFile) (n : N) (buf : list byte) (pos sz : Z) :
  file d = None ->
  read d n = (with_lastError d EBADF, []) /\
  write d buf = (with_lastError d EBADF, 0%N) /\
  seek d pos = (with_lastError d EBADF, -1) /\
  truncate d sz = (with_lastError d EBADF, -1) /\
  tell d = (with_lastError d EBADF, -1) /\
  size d = (with_lastError d EBADF, -1) /\
  m_lastError (with_lastError d EBADF) = EBADF /\
  file (with_lastError d EBADF) = None /\
  (forall d0 : RpFile, file (close d0) = None /\ isOpen (close d0) = false).
Proof.
  intros Hnull.
  unfold read, write, seek, truncate, tell, size.
  rewrite Hnull.
  repeat split.
  exact Hnull.
Qed.

(** ** truncate *)

(** C10. On an open object whose mode has [FM_WRITE], [truncate] with a
    negative size returns -1 and sets [m_lastError] to [EINVAL]; nothing
    else of the object changes, so the file's length and the position are
    what they were. *)
Theorem truncate_negative_size_rejected (d : RpFile) (f : FILE) (sz : Z) :
  file d = Some f ->
  Z.land (mode d) FM_WRITE <> 0 ->
  sz < 0 ->
  truncate d sz = (with_lastError d EINVAL, -1) /\
  file (fst (truncate d sz)) = Some f /\
  m_lastError (fst (truncate d sz)) = EINVAL /\
  snd (size (fst (truncate d sz))) = snd (size d) /\
  snd (tell (fst (truncate d sz))) = snd (tell d).
Proof.
  intros Hf Hw Hneg.
  assert (Heq : truncate d sz = (with_lastError d EINVAL, -1)).
  { unfold truncate. rewrite Hf.
    destruct (Z.eqb_spec (Z.land (mode d) FM_WRITE) 0) as [E|_]; [contradiction|].
    destruct (Z.ltb_spec sz 0) as [_|E]; [reflexivity|lia]. }
  rewrite Heq; simpl.
  split; [reflexivity|].
  split; [exact Hf|].
  split; [reflexivity|].
  split; [apply (size_with_lastError d f); exact Hf|].
  unfold tell; simpl. rewrite Hf.
  destruct (gzfd d); reflexivity.
Qed.

(** ** write *)

(** C7. On an object whose mode lacks [FM_WRITE], [write] returns 0 for
    every buffer and sets [m_lastError] to [EBADF], the code this file uses
    for a handle that cannot be written; the stream, its contents and its
    position are untouched. *)
Theorem write_read_only_fails (d : RpFile) (buf : list byte) :
  Z.land (mode d) FM_WRITE = 0 ->
  write d buf = (with_lastError d EBADF, 0%N) /\
  m_lastError (fst (write d buf)) = EBADF /\
  file (fst (write d buf)) = file d /\
  gzfd (fst (write d buf)) = gzfd d /\
  snd (tell (fst (write d buf))) = snd (tell d).
Proof.
  intros Hro.
  assert (Heq : write d buf = (with_lastError d EBADF, 0%N)).
  { unfold write. rewrite Hro. simpl. destruct (file d); reflexivity. }
  rewrite Heq; simpl.
  repeat split.
  unfold tell; simpl. destruct (file d); [destruct (gzfd d)|]; reflexivity.
Qed.

(** ** size *)

(** C5. On an open object, [size] gives the object back as it was, so
    [tell] returns the same position after the call as before it: on a
    plain stream the position is saved, moved to the end and restored, and
    the result is the file's length; on a decompressing stream the cached
    [gzsz] is returned without a seek. *)
Theorem size_preserves_position (d : RpFile) (f : FILE) :
  file d = Some f ->
  fst (size d) = d /\
  snd (tell (fst (size d))) = snd (tell d) /\
  (gzfd d = None -> snd (size d) = Z.of_nat (length (f_data f))) /\
  (forall gz, gzfd d = Some gz -> snd (size d) = gzsz d).
Proof.
  intros Hf.
  destruct (gzfd d) as [gz|] eqn:Hg.
  - rewrite (size_gz d f gz Hf Hg); simpl.
    split; [reflexivity|]. split; [reflexivity|].
    split; [discriminate | intros; reflexivity].
  - rewrite (size_plain d f Hf Hg); simpl.
    split; [reflexivity|]. split; [reflexivity|].
    split; [intros; reflexivity | intros gz; discriminate].
Qed.

(** ** truncate, on a writable stream *)

Lemma resized_length (n : nat) (old : list byte) : length (resized n old) = n.
Proof.
  unfold resized. rewrite length_app, length_firstn, zeros_length. lia.
Qed.

Lemma truncate_writable (d : RpFile) (f : FILE) (sz : Z) :
  file d = Some f -> f_update f = true ->
  Z.land (mode d) FM_WRITE <> 0 -> 0 <= sz ->
  truncate d sz =
    (with_file d
       (Some (set_pos (set_data f (resized (Z.to_nat sz) (f_data f)))
                      (if ftello f >? sz then Z.to_N sz else f_pos f))), 0).
Proof.
  intros Hf Hup Hw Hsz.
  unfold truncate. rewrite Hf.
  destruct (Z.eqb_spec (Z.land (mode d) FM_WRITE) 0) as [E|_]; [contradiction|].
  destruct (Z.ltb_spec sz 0) as [E|_]; [lia|].
  destruct (Z.ltb_spec (ftello f) 0) as [E|_]; [unfold ftello in E; lia|].
  unfold ftruncate, fflush. rewrite Hup.
  destruct (Z.ltb_spec sz 0) as [E|_]; [lia|]. simpl.
  unfold after_call; simpl.
  destruct (ftello f >? sz) eqn:Hgt.
  - unfold fseeko.
    destruct (Z.ltb_spec sz 0) as [E|_]; [lia|]. simpl.
    reflexivity.
  - reflexivity.
Qed.

(** C6. [truncate] on an object whose mode lacks [FM_WRITE] returns -1
    with [m_lastError = EBADF], this file's code for a handle that cannot
    be written.  On a writable plain stream and a size that is not
    negative it returns 0; the file then has the new size, and the
    position is the old one if that was at most the new size, and the new
    size otherwise. *)
Theorem truncate_clamps_position (d : RpFile) (sz : Z) :
  (Z.land (mode d) FM_WRITE = 0 ->
   truncate d sz = (with_lastError d EBADF, -1)) /\
  (forall f : FILE,
     file d = Some f -> f_update f = true -> gzfd d = None ->
     Z.land (mode d) FM_WRITE <> 0 -> 0 <= sz ->
     snd (truncate d sz) = 0 /\
     m_lastError (fst (truncate d sz)) = m_lastError d /\
     snd (size (fst (truncate d sz))) = sz /\
     snd (tell (fst (truncate d sz))) =
       (if snd (tell d) <=? sz then snd (tell d) else sz)).
Proof.
  split.
  - intros Hro. unfold truncate. rewrite Hro. destruct (file d); reflexivity.
  - intros f Hf Hup Hg Hw Hsz.
    rewrite (truncate_writable d f sz Hf Hup Hw Hsz). simpl.
    split; [reflexivity|]. split; [reflexivity|].
    split.
    + erewrite size_plain; [| reflexivity | exact Hg].
      simpl. rewrite resized_length. lia.
    + unfold tell; simpl. rewrite Hf, Hg; simpl.
      unfold ftello; simpl.
      rewrite Z.gtb_ltb.
      destruct (Z.ltb_spec sz (Z.of_N (f_pos f)));
        destruct (Z.leb_spec (Z.of_N (f_pos f)) sz); lia.
Qed.

(** ** read, by kind of stream *)

Lemma read_plain (d : RpFile) (f : FILE) (n : N) :
  file d = Some f -> gzfd d = None ->
  let buf := slice (N.to_nat (f_pos f)) (N.to_nat n) (f_data f) in
  let d' := with_file d (Some (set_pos f (f_pos f + N.of_nat (length buf)))) in
  read d n = (if f_error f then with_lastError d' (errno d) else d', buf).
Proof.
  intros Hf Hg. unfold read. rewrite Hf, Hg. unfold fread, ferror. simpl.
  destruct (f_error f); reflexivity.
Qed.

(** ** The decompressing stream *)

Lemma with_gzfd_same (d : RpFile) (gz : gzFile) :
  gzfd d = Some gz -> with_gzfd d (Some gz) = d.
Proof. destruct d; simpl; intros ->; reflexivity. Qed.

(** A skip ends at the offset asked for, or at the end of the data. *)
Lemma gz_skip_pos (total pos have : N) (look : bool) (len : N) :
  fst (fst (gz_skip total pos have look len)) = (pos + len)%N \/
  ((total <= fst (fst (gz_skip total pos have look len)))%N /\
   (total <= pos + len)%N).
Proof.
  unfold gz_skip.
  destruct (N.leb_spec len have); cbn [fst]; [left; reflexivity|].
  destruct (N.leb_spec (total - (pos + have)) (len - have)); cbn [fst]; lia.
Qed.

Lemma gz_skip_wf (total pos have : N) (look : bool) (len : N) :
  (pos + have <= total)%N ->
  fst (fst (gz_skip total pos have look len)) = N.min (pos + len) total /\
  (fst (fst (gz_skip total pos have look len))
   + snd (fst (gz_skip total pos have look len)) <= total)%N.
Proof.
  intros Hwf. unfold gz_skip.
  destruct (N.leb_spec len have); cbn [fst snd]; [lia|].
  destruct (N.leb_spec (total - (pos + have)) (len - have)); cbn [fst snd];
    [lia|].
  pose proof (N.Div0.mod_le (len - have) out_size) as Hr.
  set (r := ((len - have) mod out_size)%N) in *. clearbody r.
  set (B := out_size). clearbody B.
  destruct (N.eqb_spec r 0); lia.
Qed.

Lemma gz_read_have_wf (total pos have : N) (look : bool) (len : N) :
  (pos + have <= total)%N ->
  (pos + N.min len (total - pos) + gz_read_have total pos have look len
   <= total)%N.
Proof.
  intros Hwf. unfold gz_read_have.
  destruct (N.leb_spec len have); [lia|].
  destruct (N.leb_spec (total - (pos + have)) (len - have)); [lia|].
  destruct look; cbn [andb orb].
  - destruct (N.ltb_spec out_size (len - have)); [|lia].
    destruct (N.ltb_spec (len - have - out_size) out_size); lia.
  - destruct (N.ltb_spec (len - have) out_size); lia.
Qed.

Lemma gz_next_tell (gz : gzFile) (out : list byte) :
  gz_next gz out = (gz_pos gz + gz_seek gz)%N \/
  ((N.of_nat (length out) <= gz_next gz out)%N /\
   (N.of_nat (length out) <= gz_pos gz + gz_seek gz)%N).
Proof. apply gz_skip_pos. Qed.

Lemma gz_next_no_request (gz : gzFile) (out : list byte) :
  gz_seek gz = 0%N -> gz_next gz out = gz_pos gz.
Proof.
  intros H0. unfold gz_next, gz_skip. rewrite H0.
  destruct (N.leb_spec 0 (gz_have gz)) as [_|E]; [|lia]. cbn [fst]. lia.
Qed.

(** On a stream as zlib leaves it, the next read starts at the position
    that [gztell] reports, or at the end of the data if that is before
    it. *)
Lemma gz_next_wf (gz : gzFile) (out : list byte) :
  gz_out gz = Some out -> gz_wf gz = true ->
  gz_next gz out = N.min (gz_pos gz + gz_seek gz) (N.of_nat (length out)).
Proof.
  intros Hout Hwf. unfold gz_wf in Hwf. rewrite Hout in Hwf.
  apply N.leb_le in Hwf. unfold gz_next.
  apply (gz_skip_wf _ _ _ (gz_look gz) (gz_seek gz) Hwf).
Qed.

(** What a read returns depends on the reported position alone. *)
Lemma slice_gz_next (gz : gzFile) (out : list byte) (n : nat) :
  slice (N.to_nat (gz_next gz out)) n out
  = slice (N.to_nat (gz_pos gz + gz_seek gz)) n out.
Proof.
  destruct (gz_next_tell gz out) as [-> | [H1 H2]]; [reflexivity|].
  rewrite !slice_past_end by lia. reflexivity.
Qed.

Lemma gzread_ok (gz : gzFile) (out : list byte) (n : N) :
  gz_err gz = false -> gz_out gz = Some out -> (n <= INT_MAX)%N ->
  let buf := slice (N.to_nat (gz_pos gz + gz_seek gz)) (N.to_nat n) out in
  exists gz' : gzFile,
    gzread gz n = (gz', Z.of_nat (length buf), buf) /\
    gz_out gz' = Some out /\ gz_err gz' = false /\
    gz_next gz' out = (gz_next gz out + N.of_nat (length buf))%N /\
    (n <> 0%N ->
     gz_seek gz' = 0%N /\
     gz_pos gz' = (gz_next gz out + N.of_nat (length buf))%N) /\
    (gz_wf gz = true -> gz_wf gz' = true).
Proof.
  intros Herr Hout Hn buf. unfold gzread. rewrite Herr, Hout.
  assert (Hmod : (n mod 2 ^ 32 = n)%N).
  { apply N.mod_small. unfold INT_MAX in Hn.
    change (2 ^ 32)%N with 4294967296%N. lia. }
  rewrite Hmod.
  destruct (N.ltb_spec INT_MAX n) as [E|_]; [lia|].
  assert (Hbuf : buf = slice (N.to_nat (gz_next gz out)) (N.to_nat n) out)
    by (symmetry; apply slice_gz_next).
  destruct (N.eqb_spec n 0) as [->|Hn0].
  - exists gz.
    assert (Hnil : buf = []) by (unfold buf, slice; reflexivity).
    rewrite Hnil. cbn [length].
    split; [reflexivity|]. split; [exact Hout|]. split; [exact Herr|].
    split; [lia|]. split; [intros E; contradiction | auto].
  - pose proof (gz_skip_wf (N.of_nat (length out)) (gz_pos gz) (gz_have gz)
                  (gz_look gz) (gz_seek gz)) as Hskip.
    assert (Hnext : gz_next gz out
                    = fst (fst (gz_skip (N.of_nat (length out)) (gz_pos gz)
                                        (gz_have gz) (gz_look gz)
                                        (gz_seek gz)))) by reflexivity.
    destruct (gz_skip (N.of_nat (length out)) (gz_pos gz) (gz_have gz)
                (gz_look gz) (gz_seek gz)) as [[p h] l].
    cbn [fst snd] in Hskip, Hnext. rewrite Hnext in Hbuf |- *.
    rewrite <- Hbuf.
    eexists. split; [reflexivity|].
    cbn [gz_out gz_err gz_seek gz_pos].
    split; [reflexivity|]. split; [reflexivity|].
    split; [apply gz_next_no_request; reflexivity|].
    split; [intros _; split; reflexivity|].
    intros Hwf. unfold gz_wf in Hwf |- *. rewrite Hout in Hwf.
    cbn [gz_out gz_pos gz_have].
    apply N.leb_le in Hwf. apply N.leb_le.
    destruct (Hskip Hwf) as [_ Hph].
    pose proof (gz_read_have_wf (N.of_nat (length out)) p h l n) as Hrd.
    assert (Hlen : N.of_nat (length buf)
                   = N.min n (N.of_nat (length out) - p)).
    { rewrite Hbuf, slice_length. lia. }
    rewrite Hlen. lia.
Qed.

Lemma read_gz (d : RpFile) (f : FILE) (gz : gzFile) (out : list byte) (n : N) :
  file d = Some f -> gzfd d = Some gz ->
  gz_err gz = false -> gz_out gz = Some out -> (n <= INT_MAX)%N ->
  let buf := slice (N.to_nat (gz_pos gz + gz_seek gz)) (N.to_nat n) out in
  exists gz' : gzFile,
    read d n = (with_gzfd d (Some gz'), buf) /\
    gz_out gz' = Some out /\ gz_err gz' = false /\
    gz_next gz' out = (gz_next gz out + N.of_nat (length buf))%N /\
    (n <> 0%N ->
     gz_seek gz' = 0%N /\
     gz_pos gz' = (gz_next gz out + N.of_nat (length buf))%N) /\
    (gz_wf gz = true -> gz_wf gz' = true).
Proof.
  intros Hf Hg Herr Hout Hn buf.
  destruct (gzread_ok gz out n Herr Hout Hn) as (gz' & Hrd & Hrest).
  fold buf in Hrd, Hrest.
  exists gz'. split; [|exact Hrest].
  unfold read. rewrite Hf, Hg, Hrd.
  destruct (Z.geb_spec (Z.of_nat (length buf)) 0); [reflexivity | lia].
Qed.

(** A [read] that stores a byte ran on a stream without a pending error. *)
Lemma read_gz_byte (d d1 : RpFile) (f : FILE) (gz : gzFile) (n : N)
  (b : byte) (bs : list byte) :
  file d = Some f -> gzfd d = Some gz -> read d n = (d1, b :: bs) ->
  gz_err gz = false /\ exists out, gz_out gz = Some out.
Proof.
  intros Hf Hg. unfold read. rewrite Hf, Hg. unfold gzread.
  destruct (gz_err gz); [simpl; discriminate|].
  destruct (INT_MAX <? n mod 2 ^ 32)%N; [simpl; discriminate|].
  destruct (n mod 2 ^ 32 =? 0)%N; [simpl; discriminate|].
  destruct (gz_out gz) as [out|]; [|simpl; discriminate].
  intros _. split; [reflexivity | now exists out].
Qed.

(** [seek] to an offset that is not negative, on a stream without a
    pending error: the stream reports the offset as its position. *)
Lemma seek_gz (d : RpFile) (f : FILE) (gz : gzFile) (pos : Z) :
  file d = Some f -> gzfd d = Some gz -> gz_err gz = false -> 0 <= pos ->
  exists gz' : gzFile,
    seek d pos = (with_gzfd d (Some gz'), 0) /\
    gz_out gz' = gz_out gz /\ gz_err gz' = false /\
    (gz_pos gz' + gz_seek gz')%N = Z.to_N pos /\
    (gz_wf gz = true -> gz_wf gz' = true).
Proof.
  intros Hf Hg Herr Hpos. unfold seek, gzseek. rewrite Hf, Hg, Herr.
  assert (Hge : (pos >=? 0) = true) by (apply Z.geb_le; exact Hpos).
  destruct (Z.ltb_spec (pos - Z.of_N (gz_pos gz)) 0) as [Hback|Hfwd].
  - destruct (Z.ltb_spec pos 0) as [E|_]; [lia|].
    cbv beta iota zeta. rewrite Hge.
    eexists. split; [reflexivity|]. unfold gzrewind.
    cbn [gz_out gz_err gz_pos gz_seek gz_have].
    split; [reflexivity|]. split; [reflexivity|]. split; [lia|].
    intros _. unfold gz_wf. cbn [gz_out gz_pos gz_have].
    destruct (gz_out gz); [|reflexivity].
    apply N.leb_le. lia.
  - cbv beta iota zeta. rewrite Hge.
    eexists. split; [reflexivity|]. cbn [gz_out gz_err gz_pos gz_seek].
    split; [reflexivity|]. split; [reflexivity|]. split; [lia|].
    unfold gz_wf. cbn [gz_out gz_pos gz_have].
    destruct (gz_out gz); [|reflexivity].
    intros Hwf. apply N.leb_le in Hwf. apply N.leb_le. lia.
Qed.

(** On a decompressing stream: after a [read] of one byte that stored a
    byte, the position is one further, [ungetc] brings it back, and the
    next [getc] returns the byte. *)
Lemma read_byte_ungetc_gz (d d1 : RpFile) (f : FILE) (gz : gzFile)
  (b : byte) (c : Z) :
  file d = Some f -> gzfd d = Some gz -> read d 1 = (d1, [b]) ->
  snd (tell d1) = snd (tell d) + 1 /\
  snd (LibRomData.ungetc d1 c) = 0 /\
  snd (tell (fst (LibRomData.ungetc d1 c))) = snd (tell d) /\
  snd (LibRomData.getc (fst (LibRomData.ungetc d1 c))) = byte_val b.
Proof.
  intros Hf Hg Hrd.
  destruct (read_gz_byte d d1 f gz 1 b [] Hf Hg Hrd) as [Herr [out Hout]].
  assert (Hmax : (1 <= INT_MAX)%N) by (unfold INT_MAX; lia).
  destruct (read_gz d f gz out 1 Hf Hg Herr Hout Hmax)
    as (gz1 & Hread & Hout1 & Herr1 & _ & Hpos1 & _).
  change (N.to_nat 1) with 1%nat in Hread, Hpos1.
  rewrite Hread in Hrd. injection Hrd as Hd1 Hbuf.
  rewrite Hbuf in Hpos1. change (N.of_nat (length [b])) with 1%N in Hpos1.
  destruct Hpos1 as [Hseek1 Hp1]; [discriminate|].
  set (t := (gz_pos gz + gz_seek gz)%N) in *.
  assert (Ht : (N.to_nat t < length out)%nat).
  { destruct (Nat.ltb_spec (N.to_nat t) (length out)) as [|Hge]; [assumption|].
    rewrite slice_past_end in Hbuf by exact Hge. discriminate. }
  assert (Hnext : gz_next gz out = t)
    by (destruct (gz_next_tell gz out) as [E | [_ E]]; [exact E | lia]).
  rewrite Hnext in Hp1.
  assert (Hf1 : file d1 = Some f) by (subst d1; exact Hf).
  assert (Hg1 : gzfd d1 = Some gz1) by (subst d1; reflexivity).
  assert (Htell : snd (tell d) = Z.of_N t)
    by (unfold tell; rewrite Hf, Hg; reflexivity).
  assert (Htell1 : tell d1 = (d1, Z.of_N t + 1)).
  { unfold tell. rewrite Hf1, Hg1. unfold gztell. rewrite Hseek1, Hp1.
    f_equal. lia. }
  rewrite ungetc_moves_back
    by (change (@LibRomData.tell RpFile RpFile_IRpFile) with tell;
        rewrite Htell1; cbn [snd]; lia).
  change (@LibRomData.tell RpFile RpFile_IRpFile) with tell.
  change (@LibRomData.seek RpFile RpFile_IRpFile) with seek.
  rewrite Htell1. cbn [fst snd].
  destruct (seek_gz d1 f gz1 (Z.of_N t + 1 - 1) Hf1 Hg1 Herr1 ltac:(lia))
    as (gz2 & Hseek & Hout2 & Herr2 & Hp2 & _).
  rewrite Hseek. cbn [fst snd]. rewrite Hout1 in Hout2.
  set (d2 := with_gzfd d1 (Some gz2)).
  assert (Hf2 : file d2 = Some f) by exact Hf1.
  assert (Hg2 : gzfd d2 = Some gz2) by reflexivity.
  split; [rewrite Htell; reflexivity|]. split; [reflexivity|].
  split.
  - rewrite Htell. unfold tell. rewrite Hf2, Hg2. unfold gztell.
    cbn [snd]. rewrite Hp2. lia.
  - unfold LibRomData.getc.
    change (@LibRomData.read RpFile RpFile_IRpFile) with read.
    destruct (read_gz d2 f gz2 out 1 Hf2 Hg2 Herr2 Hout2 Hmax)
      as (gz3 & Hread2 & _).
    change (N.to_nat 1) with 1%nat in Hread2.
    rewrite Hread2, Hp2.
    replace (N.to_nat (Z.to_N (Z.of_N t + 1 - 1))) with (N.to_nat t) by lia.
    rewrite Hbuf. reflexivity.
Qed.

(** ** getc and ungetc *)

Lemma ungetc_after_byte_plain (d : RpFile) (f : FILE) (c : Z) :
  file d = Some f -> gzfd d = None -> f_pos f = 1%N ->
  LibRomData.ungetc d c = (with_file d (Some (set_pos f 0)), 0).
Proof.
  intros Hf Hg Hp. unfold LibRomData.ungetc; simpl.
  unfold tell. rewrite Hf, Hg. unfold ftello. rewrite Hp. simpl.
  unfold seek. rewrite Hf, Hg. reflexivity.
Qed.

(** C4. On an open object at position 0: when a [read] of one byte has
    stored a byte, [ungetc] returns 0 and brings the position back to 0,
    and the next [getc] returns that byte; [ungetc] at position 0 itself
    returns -1 and leaves the object, and so the position, as it was.
    [ungetc] keeps no character: it only moves the position. *)
Theorem getc_ungetc_at_start (d : RpFile) (f : FILE) :
  file d = Some f ->
  snd (tell d) = 0 ->
  (forall (d1 : RpFile) (b : byte) (c : Z),
     read d 1 = (d1, [b]) ->
     snd (tell d1) = 1 /\
     snd (LibRomData.ungetc d1 c) = 0 /\
     snd (tell (fst (LibRomData.ungetc d1 c))) = 0 /\
     snd (LibRomData.getc (fst (LibRomData.ungetc d1 c))) = byte_val b /\
     (forall c' : Z, LibRomData.ungetc d1 c' = LibRomData.ungetc d1 c)) /\
  (forall c : Z, LibRomData.ungetc d c = (d, -1)).
Proof.
  intros Hf Hpos. split.
  - intros d1 b c Hrd.
    destruct (gzfd d) as [gz|] eqn:Hg.
    + (* decompressing stream *)
      assert (Ht : snd (tell d) = 0) by exact Hpos.
      destruct (read_byte_ungetc_gz d d1 f gz b c Hf Hg Hrd)
        as (H1 & H2 & H3 & H4).
      rewrite Ht in H1, H3.
      split; [exact H1|]. split; [exact H2|]. split; [exact H3|].
      split; [exact H4 | intros c'; reflexivity].
    + (* plain stream *)
      assert (Hp : f_pos f = 0%N).
      { unfold tell in Hpos. rewrite Hf, Hg in Hpos. simpl in Hpos.
        unfold ftello in Hpos. lia. }
      pose proof (read_plain d f 1 Hf Hg) as Hrp. simpl in Hrp.
      rewrite Hrd, Hp in Hrp. simpl in Hrp.
      injection Hrp as Hd1 Hbuf. rewrite <- Hbuf in Hd1. simpl in Hd1.
      assert (Hf1 : file d1 = Some (set_pos f 1))
        by (subst d1; destruct (f_error f); reflexivity).
      assert (Hg1 : gzfd d1 = None)
        by (subst d1; destruct (f_error f); exact Hg).
      rewrite (ungetc_after_byte_plain d1 (set_pos f 1) c Hf1 Hg1 eq_refl).
      simpl.
      split; [unfold tell; rewrite Hf1, Hg1; reflexivity|].
      split; [reflexivity|].
      split; [unfold tell; simpl; rewrite Hg1; reflexivity|].
      split; [|intros c';
               rewrite (ungetc_after_byte_plain d1 (set_pos f 1) c' Hf1 Hg1
                          eq_refl); reflexivity].
      unfold LibRomData.getc; simpl.
      rewrite (read_plain _ (set_pos (set_pos f 1) 0)); simpl;
        try reflexivity; try assumption.
      rewrite <- Hbuf. destruct (f_error f); reflexivity.
  - intros c. unfold LibRomData.ungetc; simpl.
    unfold tell in *. rewrite Hf in *.
    destruct (gzfd d); simpl in *; rewrite Hpos; reflexivity.
Qed.

(** ** Opening with gzip detection *)

Lemma fseeko_set_nonneg (f : FILE) (z : Z) :
  0 <= z -> fseeko f z SEEK_SET = (set_pos f (Z.to_N z), 0, 0).
Proof.
  intros Hz. unfold fseeko.
  destruct (Z.ltb_spec z 0) as [E|_]; [lia | reflexivity].
Qed.

Lemma reOpenFile_rb (fs : filesystem) (name : string) (mode e : Z)
  (ino : inode) :
  mode_to_str mode = Some "rb"%string ->
  fs name = Some ino ->
  reOpenFile fs (RpFilePrivate name mode e)
  = Returns (opened_object name mode e ino, 0).
Proof.
  intros Hm Hfs. unfold reOpenFile. simpl. rewrite Hm.
  unfold fopen. simpl. rewrite Hfs. reflexivity.
Qed.

Section Gzip.
Variable gunzip : list byte -> option (list byte).

Lemma gzip_probe_result (d : RpFile) (ino : inode) :
  file d = Some (opened_rb ino) -> gzfd d = None ->
  firstn 2 (i_data ino) = [x1f; x8b] ->
  let len := Z.of_nat (length (i_data ino)) in
  let U := gzip_isize (i_data ino) in
  gzip_probe gunzip d (opened_rb ino)
  = if (18 <? len) && (len - 18 <=? U)
    then with_gzfd (with_gzsz d U)
                   (Some (mkGz (gunzip (i_data ino)) 0 0 0 true false))
    else with_file d (Some (set_pos (opened_rb ino)
                                    (N.of_nat (length (i_data ino))))).
Proof.
  intros Hf Hg Hmagic len U.
  destruct ino as [fmt data]. unfold opened_rb in *.
  simpl in Hf, Hmagic, len, U |- *.
  destruct data as [|b0 [|b1 rest]]; try discriminate.
  injection Hmagic as -> ->.
  set (data := x1f :: x8b :: rest) in *.
  set (f0 := mkFILE data 0 fmt false false) in *.
  assert (Hrd2 : fread f0 2 = (set_pos f0 2, [x1f; x8b])) by reflexivity.
  assert (Hchk : ((length [x1f; x8b] =? 2)%nat
                  && (load_le [x1f; x8b] =? be16_to_cpu 0x1F8B)) = true)
    by reflexivity.
  unfold gzip_probe. rewrite Hrd2. cbv beta iota. rewrite Hchk.
  rewrite fseeko_end. cbv beta iota.
  change (f_data (set_pos f0 2)) with data.
  rewrite !set_pos_set_pos.
  change (ftello (set_pos f0 (N.of_nat (length data))))
    with (Z.of_N (N.of_nat (length data))).
  rewrite nat_N_Z. fold len. change (10 + 8) with 18.
  change (after_call ?x 0 0) with x.
  rewrite Z.gtb_ltb.
  destruct (Z.ltb_spec 18 len) as [Hlen|Hlen]; cbv beta iota.
  2:{ simpl. destruct d; simpl in *; reflexivity. }
  rewrite fseeko_set_nonneg by lia. cbv beta iota.
  change (0 =? 0) with true. cbv beta iota.
  change (after_call ?x 0 0) with x.
  rewrite !set_pos_set_pos.
  unfold fread. 
  change (f_pos (set_pos f0 (Z.to_N (len - 4)))) with (Z.to_N (len - 4)).
  change (f_data (set_pos f0 (Z.to_N (len - 4)))) with data.
  replace (N.to_nat (Z.to_N (len - 4))) with (length data - 4)%nat by lia.
  change (N.to_nat 4) with 4%nat.
  fold (gzip_isize data). fold U.
  assert (Hlen4 : length (slice (length data - 4) 4 data) = 4%nat)
    by (apply slice_full; lia).
  rewrite Hlen4. change ((4 =? 4)%nat) with true. 
  unfold le32_to_cpu.
  rewrite Z.geb_leb. rewrite !set_pos_set_pos.
  replace (Z.to_N (len - 4) + N.of_nat 4)%N with (N.of_nat (length data))
    by lia.
  destruct (len - 18 <=? U); simpl andb; cbv beta iota.
  - change (dup (fileno ?x) >=? 0) with true. cbv beta iota.
    destruct d; simpl in *. subst. reflexivity.
  - destruct d; reflexivity.
Qed.

(** The object that the constructor leaves for a file with the gzip magic. *)
Lemma RpFile_new_gzip_magic (fs : filesystem) (name : string) (e : Z)
  (ino : inode) :
  mode_to_str FM_OPEN_READ_GZ = Some "rb"%string ->
  fs name = Some ino ->
  firstn 2 (i_data ino) = [x1f; x8b] ->
  let len := Z.of_nat (length (i_data ino)) in
  let U := gzip_isize (i_data ino) in
  let d1 := opened_object name FM_OPEN_READ_GZ e ino in
  RpFile_new gunzip fs name FM_OPEN_READ_GZ e
  = Returns (if (18 <? len) && (len - 18 <=? U)
             then with_gzfd (with_gzsz d1 U)
                            (Some (mkGz (gunzip (i_data ino)) 0 0 0 true false))
             else d1).
Proof.
  intros Hm Hfs Hmagic len U d1.
  unfold RpFile_new, init.
  rewrite (reOpenFile_rb fs name FM_OPEN_READ_GZ e ino Hm Hfs).
  fold d1. change (negb (0 =? 0)) with false. cbv beta iota.
  change (file d1) with (Some (opened_rb ino)). cbv beta iota.
  change (mode d1) with FM_OPEN_READ_GZ. rewrite Z.eqb_refl.
  rewrite (gzip_probe_result d1 ino eq_refl eq_refl Hmagic).
  fold len U.
  destruct ((18 <? len) && (len - 18 <=? U)); reflexivity.
Qed.

(** Sequential reads of a plain stream give the file from the position
    on. *)
Lemma read_seq_plain (sizes : list N) :
  forall (d : RpFile) (f : FILE),
    file d = Some f -> gzfd d = None ->
    snd (read_seq d sizes)
    = slice (N.to_nat (f_pos f)) (N.to_nat (total sizes)) (f_data f).
Proof.
  induction sizes as [|n sizes IH]; intros d f Hf Hg.
  - reflexivity.
  - simpl read_seq. rewrite (read_plain d f n Hf Hg).
    set (buf := slice (N.to_nat (f_pos f)) (N.to_nat n) (f_data f)).
    set (f' := set_pos f (f_pos f + N.of_nat (length buf))).
    set (d' := if f_error f
               then with_lastError (with_file d (Some f')) (errno d)
               else with_file d (Some f')).
    assert (Hf' : file d' = Some f') by (unfold d'; destruct (f_error f); reflexivity).
    assert (Hg' : gzfd d' = None) by (unfold d'; destruct (f_error f); exact Hg).
    specialize (IH d' f' Hf' Hg').
    destruct (read_seq d' sizes) as [d2 bs]. simpl in IH |- *. subst bs.
    unfold f'; simpl f_pos; simpl f_data.
    replace (N.to_nat (f_pos f + N.of_nat (length buf)))
      with (N.to_nat (f_pos f) + length buf)%nat by lia.
    replace (N.to_nat (n + total sizes))
      with (N.to_nat n + N.to_nat (total sizes))%nat by lia.
    apply slice_chunks.
Qed.

(** Sequential reads of a decompressing stream give the uncompressed data
    from the position on. *)
Lemma read_seq_gz (sizes : list N) :
  forall (d : RpFile) (f : FILE) (gz : gzFile) (out : list byte),
    file d = Some f -> gzfd d = Some gz ->
    gz_err gz = false -> gz_out gz = Some out ->
    Forall (fun n => (n <= INT_MAX)%N) sizes ->
    snd (read_seq d sizes)
    = slice (N.to_nat (gz_next gz out)) (N.to_nat (total sizes)) out.
Proof.
  induction sizes as [|n sizes IH]; intros d f gz out Hf Hg Herr Hout Hall.
  - reflexivity.
  - inversion Hall as [|? ? Hn Hrest]; subst.
    simpl read_seq.
    destruct (read_gz d f gz out n Hf Hg Herr Hout Hn)
      as (gz' & Hread & Hout' & Herr' & Hnext & _).
    rewrite <- slice_gz_next in Hread, Hnext. rewrite Hread.
    set (buf := slice (N.to_nat (gz_next gz out)) (N.to_nat n) out) in *.
    specialize (IH (with_gzfd d (Some gz')) f gz' out Hf eq_refl Herr' Hout'
                   Hrest).
    destruct (read_seq (with_gzfd d (Some gz')) sizes) as [d2 bs].
    simpl in IH |- *. subst bs. rewrite Hnext.
    replace (N.to_nat (gz_next gz out + N.of_nat (length buf)))
      with (N.to_nat (gz_next gz out) + length buf)%nat by lia.
    replace (N.to_nat (n + total sizes))
      with (N.to_nat n + N.to_nat (total sizes))%nat by lia.
    apply slice_chunks.
Qed.

(** X20. A file opened with [FM_OPEN_READ_GZ] whose first two bytes are
    the gzip magic number.  If the file is longer than 18 bytes and the
    number [U] in its last four bytes, read as little-endian, is at least
    the length minus 18, the object decompresses: [size] returns [U], and
    sequential [read] calls of at most [INT_MAX] bytes each return the
    uncompressed data in order, when zlib decodes the file.  Otherwise the
    object does not decompress: [size] returns the length of the file and
    sequential [read] calls return the bytes of the file. *)
Theorem gzip_detection (fs : filesystem) (name : string) (e : Z)
  (ino : inode) :
  mode_to_str FM_OPEN_READ_GZ = Some "rb"%string ->
  fs name = Some ino ->
  firstn 2 (i_data ino) = [x1f; x8b] ->
  let data := i_data ino in
  let len := Z.of_nat (length data) in
  let U := gzip_isize data in
  exists d : RpFile,
    RpFile_new gunzip fs name FM_OPEN_READ_GZ e = Returns d /\
    isOpen d = true /\
    snd (tell d) = 0 /\
    (18 < len -> len - 18 <= U ->
     (exists gz, gzfd d = Some gz) /\
     snd (size d) = U /\
     forall (out : list byte) (sizes : list N),
       gunzip data = Some out ->
       Forall (fun n => (n <= INT_MAX)%N) sizes ->
       snd (read_seq d sizes) = firstn (N.to_nat (total sizes)) out) /\
    (~ (18 < len /\ len - 18 <= U) ->
     gzfd d = None /\
     snd (size d) = len /\
     forall sizes : list N,
       snd (read_seq d sizes) = firstn (N.to_nat (total sizes)) data).
Proof.
  intros Hm Hfs Hmagic data len U.
  eexists. split.
  { apply (RpFile_new_gzip_magic fs name e ino Hm Hfs Hmagic). }
  fold data len U.
  set (d1 := opened_object name FM_OPEN_READ_GZ e ino).
  destruct (Z.ltb_spec 18 len) as [H18|H18];
    [destruct (Z.leb_spec (len - 18) U) as [HU|HU]|]; simpl andb; cbv iota.
  - (* the trailer is consistent *)
    split; [reflexivity|]. split; [reflexivity|]. split.
    + intros _ _. split; [eexists; reflexivity|]. split; [reflexivity|].
      intros out sizes Hout Hall.
      erewrite read_seq_gz;
        [| reflexivity | reflexivity | reflexivity | exact Hout | exact Hall].
      reflexivity.
    + intros Hno. exfalso. apply Hno. split; assumption.
  - (* the trailer is too small *)
    split; [reflexivity|]. split; [reflexivity|]. split.
    + intros _ Hle. lia.
    + intros _. split; [reflexivity|].
      split; [rewrite (size_plain d1 (opened_rb ino) eq_refl eq_refl);
              reflexivity|].
      intros sizes.
      rewrite (read_seq_plain sizes d1 (opened_rb ino) eq_refl eq_refl).
      reflexivity.
  - (* the file is too short for a trailer *)
    split; [reflexivity|]. split; [reflexivity|]. split.
    + intros Hlt. lia.
    + intros _. split; [reflexivity|].
      split; [rewrite (size_plain d1 (opened_rb ino) eq_refl eq_refl);
              reflexivity|].
      intros sizes.
      rewrite (read_seq_plain sizes d1 (opened_rb ino) eq_refl eq_refl).
      reflexivity.
Qed.

End Gzip.

(** ** read on a decompressing stream: the size *)

(** C1. [read] hands its [size_t] size to [gzread], whose parameter is an
    [unsigned]: on a decompressing stream without a pending error only
    the low 32 bits of the size count, and a size whose low 32 bits
    exceed [INT_MAX] returns no bytes although data is left.  The refusal
    stays with the stream as an error: every later [read] returns no
    bytes and every later [seek] fails. *)
Theorem gzip_read_size_cut (d : RpFile) (f : FILE) (gz : gzFile) (n : N) :
  file d = Some f -> gzfd d = Some gz -> gz_err gz = false ->
  read d n = read d (n mod 2 ^ 32)%N /\
  ((INT_MAX < n mod 2 ^ 32)%N ->
   snd (read d n) = [] /\
   gz_clean (fst (read d n)) = false /\
   served_data (fst (read d n)) = served_data d /\
   snd (tell (fst (read d n))) = snd (tell d) /\
   (forall m : N, snd (read (fst (read d n)) m) = []) /\
   (forall pos : Z, snd (seek (fst (read d n)) pos) = -1)).
Proof.
  intros Hf Hg Herr. split.
  - unfold read. rewrite Hf, Hg. unfold gzread.
    rewrite N.Div0.mod_mod. reflexivity.
  - intros Hbig.
    assert (Hrd : read d n
                  = (with_lastError (with_gzfd d (Some (gz_error gz)))
                                    (errno d), [])).
    { unfold read. rewrite Hf, Hg. unfold gzread. rewrite Herr.
      destruct (N.ltb_spec INT_MAX (n mod 2 ^ 32)) as [_|E]; [|lia].
      reflexivity. }
    rewrite Hrd. cbn [fst snd].
    split; [reflexivity|]. split; [reflexivity|].
    split; [unfold served_data; cbn; rewrite Hf, Hg; reflexivity|].
    split; [unfold tell; cbn; rewrite Hf, Hg; reflexivity|].
    split.
    + intros m. unfold read. cbn. rewrite Hf. reflexivity.
    + intros pos. unfold seek. cbn. rewrite Hf. reflexivity.
Qed.

(** ** Opening: how the mode is resolved *)

Lemma mode_to_str_none (mode : Z) :
  let m := Z.land mode FM_MODE_MASK in
  mode_to_str mode = None <->
  (m <> FM_OPEN_READ /\ m <> FM_OPEN_WRITE /\
   m <> Z.lor FM_CREATE FM_READ /\ m <> FM_CREATE_WRITE).
Proof.
  intros m. unfold mode_to_str. fold m.
  destruct (Z.eqb_spec m FM_OPEN_READ);
    [split; [discriminate | intros [? _]; contradiction]|].
  destruct (Z.eqb_spec m FM_OPEN_WRITE);
    [split; [discriminate | intros [_ [? _]]; contradiction]|].
  destruct (Z.eqb_spec m (Z.lor FM_CREATE FM_READ));
    [split; [discriminate | intros [_ [_ [? _]]]; contradiction]|].
  destruct (Z.eqb_spec m FM_CREATE_WRITE);
    [split; [discriminate | intros [_ [_ [_ ?]]]; contradiction]|].
  simpl. split; [intros _; repeat split; assumption | reflexivity].
Qed.

Lemma mode_to_str_some (mode : Z) (s : string) :
  let m := Z.land mode FM_MODE_MASK in
  mode_to_str mode = Some s ->
  (s = "rb"%string /\ m = FM_OPEN_READ) \/
  (s = "rb+"%string /\ m = FM_OPEN_WRITE) \/
  (s = "wb+"%string /\ (m = Z.lor FM_CREATE FM_READ \/ m = FM_CREATE_WRITE)).
Proof.
  intros m. unfold mode_to_str. fold m.
  destruct (Z.eqb_spec m FM_OPEN_READ);
    [intros [= <-]; left; split; auto|].
  destruct (Z.eqb_spec m FM_OPEN_WRITE);
    [intros [= <-]; right; left; split; auto|].
  destruct (Z.eqb_spec m (Z.lor FM_CREATE FM_READ));
    [intros [= <-]; right; right; split; auto|].
  destruct (Z.eqb_spec m FM_CREATE_WRITE);
    [intros [= <-]; right; right; split; auto|].
  discriminate.
Qed.

(** X21. [reOpenFile] resolves the mode by its masked bits:
    [FM_OPEN_READ] to "rb", [FM_OPEN_WRITE] to "rb+", and both
    [FM_CREATE|FM_READ] and [FM_CREATE_WRITE] to "wb+"; a masked value
    without a label has no mode string.  With a mode string the call
    fails only when [fopen] fails, then with a null handle and, as return
    value and [m_lastError], the [errno] of [fopen] ([EIO] if that is 0);
    when [fopen] succeeds the handle is set, the result is 0 and
    [m_lastError] is not touched. *)
Theorem open_mode_resolution (fs : filesystem) (d : RpFile) :
  let m := Z.land (mode d) FM_MODE_MASK in
  (mode_to_str (mode d) = None <->
   (m <> FM_OPEN_READ /\ m <> FM_OPEN_WRITE /\
    m <> Z.lor FM_CREATE FM_READ /\ m <> FM_CREATE_WRITE)) /\
  (forall s : string,
     mode_to_str (mode d) = Some s ->
     ((s = "rb"%string /\ m = FM_OPEN_READ) \/
      (s = "rb+"%string /\ m = FM_OPEN_WRITE) \/
      (s = "wb+"%string /\
       (m = Z.lor FM_CREATE FM_READ \/ m = FM_CREATE_WRITE))) /\
     match fopen fs (filename d) s with
     | (Some f, _) =>
         exists d', reOpenFile fs d = Returns (d', 0) /\
                    file d' = Some f /\
                    m_lastError d' = m_lastError d
     | (None, e) =>
         let err := if e =? 0 then EIO else e in
         exists d', reOpenFile fs d = Returns (d', err) /\
                    err <> 0 /\
                    file d' = None /\
                    m_lastError d' = err
     end).
Proof.
  intros m. split; [apply mode_to_str_none|].
  intros s Hs. split; [apply (mode_to_str_some (mode d) s Hs)|].
  unfold reOpenFile. rewrite Hs.
  destruct (fopen fs (filename d) s) as [[f|] e].
  - eexists. split; [reflexivity|]. split; reflexivity.
  - simpl. destruct (Z.eqb_spec e 0) as [->|Hne].
    + eexists. split; [reflexivity|]. repeat split. discriminate.
    + eexists. split; [reflexivity|]. repeat split. exact Hne.
Qed.


End RpFileProperties.

(** ** Writable objects, with the enumerators' values *)

Lemma land_write_bit (m : Z) :
  Z.land m 1 <> 0 -> Z.land m 3 = 1 \/ Z.land m 3 = 3.
Proof.
  assert (E1 : Z.land m 1 = m mod 2) by (apply (Z.land_ones m 1); lia).
  assert (E3 : Z.land m 3 = m mod 4) by (apply (Z.land_ones m 2); lia).
  rewrite E1, E3. intros Hodd.
  pose proof (Z.mod_pos_bound m 4 ltac:(lia)) as B4.
  pose proof (Z.mod_pos_bound m 2 ltac:(lia)) as B2.
  pose proof (Z.div_mod m 4 ltac:(lia)) as D4.
  pose proof (Z.div_mod m 2 ltac:(lia)) as D2.
  lia.
Qed.

(** With [FM_WRITE = 1] in a two-bit mode mask, an object that the
    constructor opened with [FM_WRITE] in its mode has a stream that is
    open for update, and does not decompress. *)
Lemma writable_object_is_plain (gunzip : list byte -> option (list byte))
  (fs : filesystem) (name : string) (mode e : Z) (d : RpFile) (f : FILE) :
  RpFile_new (fm := FileMode_values) gunzip fs name mode e = Returns d ->
  file d = Some f ->
  Z.land mode FM_WRITE <> 0 ->
  f_update f = true /\ gzfd d = None /\ LibRpBase.mode d = mode.
Proof.
  intros Hnew Hf Hw. change FM_WRITE with 1 in Hw.
  assert (Hgz : (mode =? FM_OPEN_READ_GZ) = false).
  { apply Z.eqb_neq. intros ->. apply Hw. reflexivity. }
  change FM_OPEN_READ_GZ with 4 in Hgz.
  unfold RpFile_new, init, reOpenFile, mode_to_str in Hnew.
  change (LibRpBase.mode (RpFilePrivate name mode e)) with mode in Hnew.
  change FM_MODE_MASK with 3 in Hnew.
  destruct (land_write_bit mode Hw) as [E|E]; rewrite E in Hnew;
    simpl in Hnew; unfold fopen in Hnew; simpl in Hnew;
    destruct (fs name) as [ino|]; simpl in Hnew;
    try rewrite Hgz in Hnew;
    injection Hnew as <-; simpl in Hf |- *;
    try discriminate; injection Hf as <-; repeat split.
Qed.

(** ** The sparse disc reader *)

Section SparseReads.
Import SparseDiscReader.



Lemma touched_spec (bm : BlockMap) (offset n i : N) :
  (first_block bm offset <= i <= last_block bm offset n)%N ->
  In i (touched bm offset n).
Proof.
  intros [Hlo Hhi]. unfold touched.
  apply in_map_iff. exists (N.to_nat (i - first_block bm offset)).
  split; [lia|].
  apply in_seq. lia.
Qed.







(** C2. With 512-byte blocks and a table that gives block 0 the address
    [X], block 1 no storage and block 2 the address [Y], a read of the
    logical range [[256, 1280)] returns 1024 bytes: the last 256 bytes of
    the block stored at [X], then 512 zeros, then the first 256 bytes of
    the block stored at [Y].  The backing store is read twice, for these
    two parts; the zeros cost no access. *)
Theorem read_across_empty_block (X Y : N) (backing : list byte) :
  (0 < X)%N -> (0 < Y)%N ->
  (N.to_nat X + 512 <= length backing)%nat ->
  (N.to_nat Y + 512 <= length backing)%nat ->
  let bm := mkBlockMap 512 [X; 0%N; Y] in
  let tail_of_X := slice (N.to_nat X + 256) 256 backing in
  let head_of_Y := slice (N.to_nat Y) 256 backing in
  resolve bm 0 = At (Z.of_N X) /\
  resolve bm 1 = Empty /\
  resolve bm 2 = At (Z.of_N Y) /\
  read bm backing 256 1024
  = Ok (tail_of_X ++ zeros 512 ++ head_of_Y,
        [((X + 256)%N, 256%N); (Y, 256%N)]) /\
  length tail_of_X = 256%nat /\
  length head_of_Y = 256%nat /\
  length (tail_of_X ++ zeros 512 ++ head_of_Y) = 1024%nat.
Proof.
  intros HX HY HbX HbY bm tail_of_X head_of_Y.
  assert (Hr0 : resolve bm 0 = At (Z.of_N X)).
  { unfold resolve, getPhysBlockAddr; simpl.
    destruct (Z.ltb_spec (Z.of_N X) 0); [lia|].
    destruct (Z.eqb_spec (Z.of_N X) 0); [lia | reflexivity]. }
  assert (Hr1 : resolve bm 1 = Empty) by reflexivity.
  assert (Hr2 : resolve bm 2 = At (Z.of_N Y)).
  { unfold resolve, getPhysBlockAddr; simpl.
    destruct (Z.ltb_spec (Z.of_N Y) 0); [lia|].
    destruct (Z.eqb_spec (Z.of_N Y) 0); [lia | reflexivity]. }
  assert (HlX : length tail_of_X = 256%nat) by (apply slice_full; lia).
  assert (HlY : length head_of_Y = 256%nat) by (apply slice_full; lia).
  repeat (split; [assumption|]).
  split.
  - unfold read.
    change (disc_size bm) with 1536%N.
    change (1536 <=? 256)%N with false. cbv iota zeta.
    change (N.min 1024 (1536 - 256)) with 1024%N.
    change (1024 =? 0)%N with false. cbv iota.
    change (touched bm 256 1024) with [0%N; 1%N; 2%N].
    unfold read_blocks, read_block.
    rewrite Hr0, Hr1, Hr2.
    change (block_size bm) with 512%N.
    rewrite !N2Z.id.
    change (N.max 256 (0 * 512)) with 256%N.
    change (N.min (256 + 1024) (0 * 512 + 512)) with 512%N.
    change (N.max 256 (1 * 512)) with 512%N.
    change (N.min (256 + 1024) (1 * 512 + 512)) with 1024%N.
    change (N.max 256 (2 * 512)) with 1024%N.
    change (N.min (256 + 1024) (2 * 512 + 512)) with 1280%N.
    change (0 * 512)%N with 0%N. change (2 * 512)%N with 1024%N.
    change (512 - 256)%N with 256%N. change (256 - 0)%N with 256%N.
    change (1024 - 512)%N with 512%N. change (1280 - 1024)%N with 256%N.
    change (1024 - 1024)%N with 0%N.
    rewrite N.add_0_r.
    simpl bind. cbv beta. simpl fst. simpl snd.
    unfold tail_of_X, head_of_Y.
    replace (N.to_nat (X + 256)) with (N.to_nat X + 256)%nat by lia.
    change (N.to_nat 256) with 256%nat. change (N.to_nat 512) with 512%nat.
    rewrite app_nil_r. reflexivity.
  - split; [assumption|]. split; [assumption|].
    rewrite !length_app, zeros_length, HlX, HlY. reflexivity.
Qed.

End SparseReads.

(** * The properties on the concrete inputs *)

(** "rom.gz" opened for decompression: the size is the 25 of the
    trailer, and reads of 7 and 18 bytes give the text. *)
Lemma gzip_detection_sample :
  exists d : RpFile,
    RpFile_new sample_gunzip sample_fs "rom.gz" FM_OPEN_READ_GZ 0 = Returns d /\
    snd (size d) = 25 /\
    snd (read_seq d [7%N; 18%N]) = sample_text.
Proof.
  destruct (gzip_detection (fm := FileMode_values) sample_gunzip sample_fs "rom.gz" 0
              (mkInode S_IFREG sample_gz) eq_refl eq_refl eq_refl)
    as (d & Hnew & _ & _ & Hgz & _).
  cbv zeta in Hgz.
  destruct Hgz as (_ & Hsize & Hread); [reflexivity | discriminate |].
  exists d. split; [exact Hnew|]. split; [exact Hsize|].
  apply (Hread sample_text [7%N; 18%N]); [vm_compute; reflexivity|].
  repeat constructor; discriminate.
Defined.

(** "rom.gz", open for decompression: a read of 2^31 bytes returns
    nothing, and nothing can be read afterwards; a read of 2^32 + 2 bytes
    is a read of 2 bytes. *)
Lemma gzip_read_size_cut_sample :
  RpFile_new sample_gunzip sample_fs "rom.gz" FM_OPEN_READ_GZ 0
  = Returns sample_gz_open /\
  snd (size sample_gz_open) = 25 /\
  snd (read sample_gz_open 25) = sample_text /\
  snd (read sample_gz_open 2147483648) = [] /\
  snd (read (fst (read sample_gz_open 2147483648)) 25) = [] /\
  snd (seek (fst (read sample_gz_open 2147483648)) 0) = -1 /\
  snd (read sample_gz_open 4294967298) = [x68; x65].
Proof.
  destruct (gzip_read_size_cut sample_gz_open
              (opened_rb (mkInode S_IFREG sample_gz))
              (mkGz (Some sample_text) 0 0 0 true false) 2147483648
              eq_refl eq_refl eq_refl) as [_ Hbig].
  destruct Hbig as (Hnone & _ & _ & _ & Hlater & Hseek); [reflexivity|].
  destruct (gzip_read_size_cut sample_gz_open
              (opened_rb (mkInode S_IFREG sample_gz))
              (mkGz (Some sample_text) 0 0 0 true false) 4294967298
              eq_refl eq_refl eq_refl) as [Hcut _].
  split; [vm_compute; reflexivity|].
  split; [reflexivity|]. split; [reflexivity|].
  split; [exact Hnone|]. split; [apply Hlater|]. split; [apply Hseek|].
  rewrite Hcut. reflexivity.
Defined.

(** The sample map: a read of [[256, 1280)] gives 256 bytes 0x22, 512
    zeros and 256 bytes 0x33, with two reads of the backing store. *)
Lemma read_across_empty_block_sample :
  SparseDiscReader.read sample_map sample_backing 256 1024
  = SparseDiscReader.Ok
      (repeat x22 256 ++ zeros 512 ++ repeat x33 256,
       [(768%N, 256%N); (1024%N, 256%N)]).
Proof.
  assert (H1 : (0 < 512)%N) by reflexivity.
  assert (H2 : (0 < 1024)%N) by reflexivity.
  assert (H3 : (N.to_nat 512 + 512 <= length sample_backing)%nat)
    by (vm_compute; lia).
  assert (H4 : (N.to_nat 1024 + 512 <= length sample_backing)%nat)
    by (vm_compute; lia).
  pose proof (read_across_empty_block 512 1024 sample_backing H1 H2 H3 H4)
    as H.
  cbv zeta in H. destruct H as (_ & _ & _ & Hread & _).
  exact Hread.
Defined.



(** "rom.bin" at position 0: after reading 'A', [ungetc] goes back to 0
    and [getc] gives 'A' again. *)
Lemma getc_ungetc_sample :
  snd (LibRomData.ungetc (fst (read (sample_rw 0) 1)) 0) = 0 /\
  snd (tell (fst (LibRomData.ungetc (fst (read (sample_rw 0) 1)) 0))) = 0 /\
  snd (LibRomData.getc
         (fst (LibRomData.ungetc (fst (read (sample_rw 0) 1)) 0))) = 65 /\
  LibRomData.ungetc (sample_rw 0) 0 = (sample_rw 0, -1).
Proof.
  destruct (getc_ungetc_at_start (sample_rw 0)
              (mkFILE sample_rom 0 S_IFREG true false) eq_refl eq_refl)
    as [Hread Hfail].
  destruct (Hread (fst (read (sample_rw 0) 1)) x41 0 eq_refl)
    as (_ & Hret & Hpos & Hc & _).
  split; [exact Hret|]. split; [exact Hpos|]. split; [exact Hc|].
  apply Hfail.
Defined.

(** "rom.bin" at position 2: [size] is 3 and the position is still 2. *)
Lemma size_preserves_position_sample :
  snd (size (sample_rw 2)) = 3 /\
  snd (tell (sample_rw 2)) = 2 /\
  snd (tell (fst (size (sample_rw 2)))) = 2.
Proof.
  destruct (size_preserves_position (sample_rw 2)
              (mkFILE sample_rom 2 S_IFREG true false) eq_refl)
    as (_ & Htell & Hplain & _).
  split; [apply Hplain; reflexivity|].
  split; [reflexivity|].
  rewrite Htell. reflexivity.
Defined.

(** "rom.bin" at position 3, cut to one byte: the position becomes 1; on
    the read-only object [truncate] fails. *)
Lemma truncate_clamps_position_sample :
  truncate sample_ro 1 = (with_lastError sample_ro EBADF, -1) /\
  snd (truncate (sample_rw 3) 1) = 0 /\
  snd (size (fst (truncate (sample_rw 3) 1))) = 1 /\
  snd (tell (fst (truncate (sample_rw 3) 1))) = 1.
Proof.
  split.
  - apply (proj1 (truncate_clamps_position (fm := FileMode_values) sample_ro 1)). reflexivity.
  - destruct (proj2 (truncate_clamps_position (fm := FileMode_values) (sample_rw 3) 1)
                (mkFILE sample_rom 3 S_IFREG true false)
                eq_refl eq_refl eq_refl)
      as (Hret & _ & Hsize & Htell); [discriminate | lia |].
    split; [exact Hret|]. split; [exact Hsize | exact Htell].
Defined.

(** The read-only object refuses a one-byte write. *)
Lemma write_read_only_sample :
  write sample_ro [x00] = (with_lastError sample_ro EBADF, 0%N) /\
  file (fst (write sample_ro [x00])) = file sample_ro.
Proof.
  destruct (write_read_only_fails (fm := FileMode_values) sample_ro [x00] eq_refl)
    as (Hw & _ & Hfile & _).
  split; [exact Hw | exact Hfile].
Defined.

(** The closed object: a read fails with [EBADF]. *)
Lemma null_handle_sample :
  read (close (sample_rw 0)) 4 = (with_lastError (close (sample_rw 0)) EBADF, []) /\
  size (close (sample_rw 0)) = (with_lastError (close (sample_rw 0)) EBADF, -1).
Proof.
  destruct (null_handle_operations_fail (fm := FileMode_values) (close (sample_rw 0)) 4 [] 0 0 eq_refl)
    as (Hread & _ & _ & _ & _ & Hsize & _).
  split; [exact Hread | exact Hsize].
Defined.

(** The writable object refuses the size -1 and keeps its three bytes. *)
Lemma truncate_negative_size_sample :
  truncate (sample_rw 2) (-1) = (with_lastError (sample_rw 2) EINVAL, -1) /\
  snd (size (fst (truncate (sample_rw 2) (-1)))) = 3 /\
  snd (tell (fst (truncate (sample_rw 2) (-1)))) = 2.
Proof.
  destruct (truncate_negative_size_rejected (fm := FileMode_values) (sample_rw 2)
              (mkFILE sample_rom 2 S_IFREG true false) (-1) eq_refl)
    as (Ht & _ & _ & Hsize & Htell); [discriminate | lia |].
  split; [exact Ht|]. split; [rewrite Hsize | rewrite Htell]; reflexivity.
Defined.

(** A file that does not exist, opened for reading: [fopen] fails with
    [ENOENT], which becomes the result and [m_lastError]. *)
Lemma open_mode_resolution_sample :
  exists d : RpFile,
    reOpenFile sample_fs sample_absent = Returns (d, ENOENT) /\
    file d = None /\ m_lastError d = ENOENT.
Proof.
  destruct (proj2 (open_mode_resolution (fm := FileMode_values) sample_fs
                     sample_absent)
              "rb"%string eq_refl) as [_ Hopen].
  simpl in Hopen. destruct Hopen as (d & Hre & _ & Hfile & Herr).
  exists d. split; [exact Hre|]. split; [exact Hfile | exact Herr].
Defined.


(** * Further properties of the file object *)

Section RpFileComposition.
Context {fm : FileMode}.

(** ** seek and tell *)

Lemma seek_plain (d : RpFile) (f : FILE) (pos : Z) :
  file d = Some f -> gzfd d = None -> 0 <= pos ->
  seek d pos = (with_file d (Some (set_pos f (Z.to_N pos))), 0).
Proof.
  intros Hf Hg Hpos. unfold seek. rewrite Hf, Hg.
  rewrite (fseeko_set_nonneg f pos Hpos). reflexivity.
Qed.

(** X1. On an open object without a pending stream error, [seek] to a
    position that is not negative returns 0, [tell] then returns that
    position, also beyond the end of the data, and [m_lastError] is not
    touched. *)
Theorem seek_then_tell (d : RpFile) (f : FILE) (pos : Z) :
  file d = Some f -> gz_clean d = true -> 0 <= pos ->
  snd (seek d pos) = 0 /\
  snd (tell (fst (seek d pos))) = pos /\
  m_lastError (fst (seek d pos)) = m_lastError d /\
  served_data (fst (seek d pos)) = served_data d.
Proof.
  intros Hf Hclean Hpos. unfold gz_clean, served_data in *.
  destruct (gzfd d) as [gz|] eqn:Hg.
  - apply negb_true_iff in Hclean.
    destruct (seek_gz d f gz pos Hf Hg Hclean Hpos)
      as (gz' & -> & Hout & _ & Hp & _).
    cbn [fst snd]. unfold tell. cbn. rewrite Hf. unfold gztell.
    cbn [snd]. rewrite Hp, Hout.
    repeat split; lia.
  - rewrite (seek_plain d f pos Hf Hg Hpos). simpl.
    unfold tell; simpl. rewrite Hg, Hf. unfold ftello; simpl.
    repeat split; lia.
Qed.

(** X2. [seek] to a negative position on an open object returns -1.
    [m_lastError] becomes [EINVAL] on a plain stream and the negative
    number [-EIO] on a decompressing one.  A plain stream stays where it
    was.  A decompressing stream without a pending error gives up the
    request of an earlier [seek] that no [read] has carried out: [tell]
    then returns the offset that the stream had reached, which is not
    beyond the position before the call, and is that position when no
    request was pending.  With a pending error the stream is left as it
    was. *)
Theorem seek_negative_fails (d : RpFile) (f : FILE) (pos : Z) :
  file d = Some f -> pos < 0 ->
  snd (seek d pos) = -1 /\
  m_lastError (fst (seek d pos))
  = match gzfd d with Some _ => - EIO | None => EINVAL end /\
  snd (tell (fst (seek d pos)))
  = match gzfd d with
    | Some gz => if gz_err gz then snd (tell d) else Z.of_N (gz_pos gz)
    | None => snd (tell d)
    end /\
  snd (tell (fst (seek d pos))) <= snd (tell d) /\
  (match gzfd d with Some gz => gz_seek gz = 0%N | None => True end ->
   snd (tell (fst (seek d pos))) = snd (tell d)) /\
  served_data (fst (seek d pos)) = served_data d.
Proof.
  intros Hf Hneg. unfold seek, served_data. rewrite Hf.
  destruct (gzfd d) as [gz|] eqn:Hg.
  - unfold gzseek. destruct (gz_err gz) eqn:Herr.
    + cbn. unfold tell. cbn. rewrite Hf, Hg.
      repeat split; try reflexivity; try lia.
    + destruct (Z.ltb_spec (pos - Z.of_N (gz_pos gz)) 0) as [_|E]; [|lia].
      destruct (Z.ltb_spec pos 0) as [_|E]; [|lia].
      cbn. unfold tell. cbn. rewrite Hf, Hg. unfold gztell. cbn.
      split; [reflexivity|]. split; [reflexivity|].
      split; [f_equal; lia|]. split; [lia|].
      split; [intros ->; reflexivity | reflexivity].
  - unfold fseeko.
    destruct (Z.ltb_spec pos 0) as [_|E]; [|lia].
    cbn. unfold tell; cbn. rewrite Hf, Hg.
    repeat split; try reflexivity; try lia.
Qed.

(** ** read *)

(** X3. A [read] on a plain stream returns the bytes of the file from the
    position on, at most [size] of them and none past the end of the file:
    their number is the smaller of [size] and what is left, and 0 when the
    position is at or beyond the end.  The position moves forward by that
    number, and the size of the file stays. *)
Theorem read_stays_in_file (d : RpFile) (f : FILE) (n : N) :
  file d = Some f -> gzfd d = None ->
  snd (read d n) = slice (N.to_nat (f_pos f)) (N.to_nat n) (f_data f) /\
  Z.of_nat (length (snd (read d n)))
  = Z.max 0 (Z.min (Z.of_N n) (snd (size d) - snd (tell d))) /\
  snd (tell (fst (read d n)))
  = snd (tell d) + Z.of_nat (length (snd (read d n))) /\
  snd (size (fst (read d n))) = snd (size d).
Proof.
  intros Hf Hg.
  pose proof (read_plain d f n Hf Hg) as Hrd. cbv zeta in Hrd.
  set (buf := slice (N.to_nat (f_pos f)) (N.to_nat n) (f_data f)) in *.
  set (f' := set_pos f (f_pos f + N.of_nat (length buf))) in *.
  assert (Hf' : file (fst (read d n)) = Some f')
    by (rewrite Hrd; destruct (f_error f); reflexivity).
  assert (Hg' : gzfd (fst (read d n)) = None)
    by (rewrite Hrd; destruct (f_error f); exact Hg).
  assert (Hbuf : snd (read d n) = buf) by (rewrite Hrd; reflexivity).
  rewrite Hbuf.
  rewrite (size_plain _ f' Hf' Hg'), (size_plain d f Hf Hg). simpl.
  unfold tell. rewrite Hf', Hg', Hf, Hg. unfold ftello; simpl.
  split; [reflexivity|].
  unfold buf. rewrite slice_length.
  repeat split; lia.
Qed.

(** X4. Random access on an object without a pending stream error: after
    a [seek] to [pos], not negative, a [read] of at most [INT_MAX] bytes
    returns the bytes that the object serves from offset [pos] on, the
    uncompressed data on a decompressing stream and the file's bytes on a
    plain one. *)
Theorem seek_then_read (d : RpFile) (f : FILE) (data : list byte)
  (pos : Z) (n : N) :
  file d = Some f -> gz_clean d = true -> served_data d = Some data ->
  0 <= pos -> (n <= INT_MAX)%N ->
  snd (read (fst (seek d pos)) n) = slice (Z.to_nat pos) (N.to_nat n) data.
Proof.
  intros Hf Hclean Hdata Hpos Hn. unfold gz_clean, served_data in *.
  rewrite Hf in Hdata.
  destruct (gzfd d) as [gz|] eqn:Hg.
  - apply negb_true_iff in Hclean.
    destruct (seek_gz d f gz pos Hf Hg Hclean Hpos)
      as (gz1 & -> & Hout1 & Herr1 & Hp1 & _).
    cbn [fst]. rewrite Hdata in Hout1.
    destruct (read_gz (with_gzfd d (Some gz1)) f gz1 data n Hf eq_refl
                Herr1 Hout1 Hn) as (gz2 & -> & _).
    cbn [snd]. rewrite Hp1. f_equal. lia.
  - injection Hdata as <-.
    rewrite (seek_plain d f pos Hf Hg Hpos). simpl.
    rewrite (read_plain _ (set_pos f (Z.to_N pos)) n); try reflexivity;
      try assumption.
    simpl. f_equal. lia.
Qed.

(** ** write *)

Lemma overwrite_length (old buf : list byte) (p : nat) :
  length (firstn p (old ++ zeros (p - length old)) ++ buf
          ++ skipn (p + length buf) old)
  = Nat.max (length old) (p + length buf).
Proof.
  rewrite !length_app, length_firstn, length_app, zeros_length, length_skipn.
  lia.
Qed.

Lemma overwrite_slice (old buf : list byte) (p : nat) :
  slice p (length buf)
        (firstn p (old ++ zeros (p - length old)) ++ buf
         ++ skipn (p + length buf) old)
  = buf.
Proof.
  unfold slice.
  assert (Hp : length (firstn p (old ++ zeros (p - length old))) = p)
    by (rewrite length_firstn, length_app, zeros_length; lia).
  rewrite skipn_app, Hp, Nat.sub_diag.
  rewrite (skipn_all2 (n := p)) by (rewrite Hp; lia).
  change (skipn 0 ?l) with l. simpl app at 1.
  rewrite firstn_app, Nat.sub_diag, firstn_all.
  change (firstn 0 ?l) with (@nil byte).
  apply app_nil_r.
Qed.

Lemma write_plain (d : RpFile) (f : FILE) (b : byte) (buf : list byte) :
  file d = Some f -> f_update f = true -> Z.land (mode d) FM_WRITE <> 0 ->
  let p := N.to_nat (f_pos f) in
  let data := firstn p (f_data f ++ zeros (p - length (f_data f)))
              ++ (b :: buf) ++ skipn (p + length (b :: buf)) (f_data f) in
  let f' := set_pos (set_data f data)
                    (f_pos f + N.of_nat (length (b :: buf))) in
  write d (b :: buf)
  = (if f_error f
     then with_lastError (with_file d (Some f')) (errno d)
     else with_file d (Some f'),
     N.of_nat (length (b :: buf))).
Proof.
  intros Hf Hup Hw p data f'. unfold write. rewrite Hf.
  destruct (Z.eqb_spec (Z.land (mode d) FM_WRITE) 0) as [E|_]; [contradiction|].
  unfold fwrite. rewrite Hup. fold p. fold data. fold f'.
  rewrite N.ltb_irrefl. unfold ferror.
  change (f_error f') with (f_error f).
  destruct (f_error f); reflexivity.
Qed.

(** X5. On a plain stream that is open for update, in an object whose
    mode has [FM_WRITE], [write] of a buffer that is not empty returns the
    length of the buffer and moves the position forward by it; the file
    grows to the end of the written range if that lies beyond its old
    end, and a [seek] back to the old position followed by a [read] of as
    many bytes returns the buffer. *)
Theorem write_then_read_back (d : RpFile) (f : FILE) (b : byte)
  (rest : list byte) :
  file d = Some f -> gzfd d = None -> f_update f = true ->
  Z.land (mode d) FM_WRITE <> 0 ->
  let buf := b :: rest in
  let d1 := fst (write d buf) in
  snd (write d buf) = N.of_nat (length buf) /\
  snd (tell d1) = snd (tell d) + Z.of_nat (length buf) /\
  snd (size d1)
  = Z.max (snd (size d)) (snd (tell d) + Z.of_nat (length buf)) /\
  snd (read (fst (seek d1 (snd (tell d)))) (N.of_nat (length buf))) = buf.
Proof.
  intros Hf Hg Hup Hw buf d1.
  pose proof (write_plain d f b rest Hf Hup Hw) as Hwr. cbv zeta in Hwr.
  fold buf in Hwr.
  set (p := N.to_nat (f_pos f)) in *.
  set (data := firstn p (f_data f ++ zeros (p - length (f_data f)))
               ++ buf ++ skipn (p + length buf) (f_data f)) in *.
  set (f' := set_pos (set_data f data) (f_pos f + N.of_nat (length buf))) in *.
  clearbody buf.
  assert (Hf1 : file d1 = Some f')
    by (unfold d1; rewrite Hwr; destruct (f_error f); reflexivity).
  assert (Hg1 : gzfd d1 = None)
    by (unfold d1; rewrite Hwr; destruct (f_error f); exact Hg).
  assert (Htell : snd (tell d) = Z.of_N (f_pos f))
    by (unfold tell; rewrite Hf, Hg; reflexivity).
  split; [rewrite Hwr; reflexivity|].
  split; [unfold tell; rewrite Hf1, Hg1, Hf, Hg; unfold ftello; simpl; lia|].
  split.
  - rewrite (size_plain d1 f' Hf1 Hg1), (size_plain d f Hf Hg), Htell.
    change (f_data f') with data. change (snd (?a, ?b)) with b.
    unfold data. rewrite overwrite_length. unfold p. lia.
  - rewrite Htell.
    rewrite (seek_plain d1 f' (Z.of_N (f_pos f)) Hf1 Hg1) by lia. simpl.
    rewrite (read_plain _ (set_pos f' (Z.to_N (Z.of_N (f_pos f)))));
      try reflexivity; try assumption.
    change (snd (?a, ?b)) with b.
    change (f_pos (set_pos f' ?q)) with q.
    change (f_data (set_pos f' ?q)) with data.
    rewrite N2Z.id, Nat2N.id. fold p. unfold data.
    apply overwrite_slice.
Qed.

(** ** getc and ungetc, at any position *)

(** X6. At any position of an open object: when a [read] of one byte has
    stored a byte, the position is one further, [ungetc] returns 0 and
    brings the position back, and the next [getc] returns that byte
    again. *)
Theorem getc_ungetc_anywhere (d d1 : RpFile) (f : FILE) (b : byte) (c : Z) :
  file d = Some f -> read d 1 = (d1, [b]) ->
  snd (tell d1) = snd (tell d) + 1 /\
  snd (LibRomData.ungetc d1 c) = 0 /\
  snd (tell (fst (LibRomData.ungetc d1 c))) = snd (tell d) /\
  snd (LibRomData.getc (fst (LibRomData.ungetc d1 c))) = byte_val b.
Proof.
  intros Hf Hrd.
  destruct (gzfd d) as [gz|] eqn:Hg.
  - (* decompressing stream *)
    apply (read_byte_ungetc_gz d d1 f gz b c Hf Hg Hrd).
  - (* plain stream *)
    rewrite (read_plain d f 1 Hf Hg) in Hrd.
    change (N.to_nat 1) with 1%nat in Hrd.
    injection Hrd as Hd1 Hbuf. rewrite Hbuf in Hd1.
    change (N.of_nat (length [b])) with 1%N in Hd1.
    set (f1 := set_pos f (f_pos f + 1)) in *.
    assert (Hf1 : file d1 = Some f1)
      by (subst d1; destruct (f_error f); reflexivity).
    assert (Hg1 : gzfd d1 = None)
      by (subst d1; destruct (f_error f); exact Hg).
    assert (Ht : snd (tell d) = Z.of_N (f_pos f))
      by (unfold tell; rewrite Hf, Hg; reflexivity).
    assert (Ht1 : tell d1 = (d1, Z.of_N (f_pos f) + 1)).
    { unfold tell. rewrite Hf1, Hg1. unfold ftello, f1; simpl.
      f_equal. lia. }
    rewrite ungetc_moves_back
      by (change (@LibRomData.tell RpFile RpFile_IRpFile) with tell;
          rewrite Ht1; cbn [snd]; lia).
    change (@LibRomData.tell RpFile RpFile_IRpFile) with tell.
    change (@LibRomData.seek RpFile RpFile_IRpFile) with seek.
    rewrite Ht1. cbn [fst snd].
    rewrite (seek_plain d1 f1 (Z.of_N (f_pos f) + 1 - 1) Hf1 Hg1) by lia.
    cbn [fst snd].
    replace (Z.to_N (Z.of_N (f_pos f) + 1 - 1)) with (f_pos f) by lia.
    split; [rewrite Ht; reflexivity|]. split; [reflexivity|].
    split; [rewrite Ht; unfold tell; simpl; rewrite Hg1; reflexivity|].
    unfold LibRomData.getc.
    change (@LibRomData.read RpFile RpFile_IRpFile) with read.
    rewrite (read_plain _ (set_pos f1 (f_pos f))); try reflexivity;
      try assumption.
    change (N.to_nat 1) with 1%nat.
    change (f_pos (set_pos f1 (f_pos f))) with (f_pos f).
    change (f_data (set_pos f1 (f_pos f))) with (f_data f).
    rewrite Hbuf. reflexivity.
Qed.

(** The streams that zlib leaves: [gzread] and [gzseek] keep a stream
    well-formed, whatever their arguments, and so do [read] and [seek]. *)
Lemma gzread_wf (gz : gzFile) (n : N) :
  gz_wf gz = true -> gz_wf (fst (fst (gzread gz n))) = true.
Proof.
  intros Hwf. unfold gzread.
  destruct (gz_err gz); [exact Hwf|].
  destruct (INT_MAX <? n mod 2 ^ 32)%N.
  { unfold gz_wf in *. cbn. destruct (gz_out gz); [|reflexivity].
    apply N.leb_le in Hwf. apply N.leb_le. lia. }
  destruct (N.eqb_spec (n mod 2 ^ 32) 0) as [_|Hn]; [exact Hwf|].
  destruct (gz_out gz) as [out|] eqn:Hout; [|reflexivity].
  unfold gz_wf in Hwf. rewrite Hout in Hwf. apply N.leb_le in Hwf.
  pose proof (gz_skip_wf (N.of_nat (length out)) (gz_pos gz) (gz_have gz)
                (gz_look gz) (gz_seek gz) Hwf) as [_ Hskip].
  destruct (gz_skip (N.of_nat (length out)) (gz_pos gz) (gz_have gz)
              (gz_look gz) (gz_seek gz)) as [[p h] l].
  cbn [fst snd] in Hskip |- *. unfold gz_wf. cbn [gz_out gz_pos gz_have].
  apply N.leb_le.
  pose proof (gz_read_have_wf (N.of_nat (length out)) p h l (n mod 2 ^ 32)
                Hskip) as Hrd.
  rewrite slice_length. lia.
Qed.

Lemma gzseek_wf (gz : gzFile) (offset : Z) :
  gz_wf gz = true -> gz_wf (fst (gzseek gz offset)) = true.
Proof.
  intros Hwf. unfold gzseek.
  destruct (gz_err gz); [exact Hwf|].
  unfold gz_wf in *. unfold gzrewind.
  destruct (offset - Z.of_N (gz_pos gz) <? 0);
    [destruct (offset <? 0)|]; cbn [fst gz_out gz_pos gz_have];
    destruct (gz_out gz); try reflexivity; try exact Hwf;
    apply N.leb_le in Hwf; apply N.leb_le; lia.
Qed.

Lemma stream_wf_kept (d : RpFile) (n : N) (pos : Z) :
  stream_wf d = true ->
  stream_wf (fst (read d n)) = true /\ stream_wf (fst (seek d pos)) = true.
Proof.
  intros Hwf. unfold stream_wf in *. split.
  - unfold read. destruct (file d) as [f|]; [|exact Hwf].
    destruct (gzfd d) as [gz|] eqn:Hg.
    + pose proof (gzread_wf gz n Hwf) as Hrd.
      destruct (gzread gz n) as [[gz' iret] buf]. cbn [fst] in Hrd.
      destruct (iret >=? 0); exact Hrd.
    + destruct (fread f n) as [f' buf].
      destruct (ferror f'); cbn; rewrite Hg; reflexivity.
  - unfold seek. destruct (file d) as [f|]; [|exact Hwf].
    destruct (gzfd d) as [gz|] eqn:Hg.
    + pose proof (gzseek_wf gz pos Hwf) as Hsk.
      destruct (gzseek gz pos) as [gz' zret]. cbn [fst] in Hsk.
      destruct (zret >=? 0); exact Hsk.
    + destruct (fseeko f pos SEEK_SET) as [[f' ret] e].
      unfold after_call.
      destruct (ret =? 0); cbn; rewrite Hg; reflexivity.
Qed.

(** The constructor leaves no stream or a stream as [gzdopen] gives it. *)
Lemma gzip_probe_stream (gunzip : list byte -> option (list byte))
  (d : RpFile) (f : FILE) :
  gzfd (gzip_probe gunzip d f) = gzfd d \/
  exists out, gzfd (gzip_probe gunzip d f) = Some (mkGz out 0 0 0 true false).
Proof.
  unfold gzip_probe, gzdopen, after_call.
  repeat match goal with
         | |- context [let '(_, _) := ?x in _] => destruct x
         | |- context [if ?c then _ else _] => destruct c
         end;
    first [left; reflexivity | right; eexists; reflexivity].
Qed.

Lemma RpFile_new_stream_wf (gunzip : list byte -> option (list byte))
  (fs : filesystem) (name : string) (mode e : Z) (d : RpFile) :
  RpFile_new gunzip fs name mode e = Returns d -> stream_wf d = true.
Proof.
  unfold RpFile_new, init, reOpenFile.
  cbn [LibRpBase.mode LibRpBase.filename RpFilePrivate].
  destruct (mode_to_str mode) as [mode_str|]; [|discriminate].
  destruct (fopen fs name mode_str) as [[f|] e'].
  - cbn [negb Z.eqb file with_isDevice with_file].
    set (d0 := with_isDevice _ _).
    assert (Hg0 : gzfd d0 = None) by reflexivity.
    destruct (LibRpBase.mode d0 =? FM_OPEN_READ_GZ).
    + destruct (gzip_probe_stream gunzip d0 f) as [Hsame | [out Hnew]].
      * rewrite Hg0 in Hsame.
        set (d1 := gzip_probe gunzip d0 f) in *. clearbody d1.
        rewrite Hsame.
        destruct (file d1); intros [= <-]; unfold stream_wf;
          [change (gzfd (with_file d1 ?x)) with (gzfd d1)|];
          rewrite Hsame; reflexivity.
      * set (d1 := gzip_probe gunzip d0 f) in *. clearbody d1.
        rewrite Hnew. intros [= <-]. unfold stream_wf. rewrite Hnew.
        unfold gz_wf. cbn [gz_out gz_pos gz_have].
        destruct out; [apply N.leb_le; lia | reflexivity].
    + intros [= <-]. reflexivity.
  - cbn.
    repeat match goal with
           | |- context [if ?c then _ else _] => destruct c; cbn
           end;
      intros [= <-]; reflexivity.
Qed.

(** X7. At or beyond the end of the data that an open object serves,
    [getc] returns [EOF].  On a plain stream the position stays where it
    is.  On a decompressing stream, as zlib leaves it and without a
    pending error, the position afterwards is the end of the data: the
    [read] carries out a pending seek request only as far as the data
    goes. *)
Theorem getc_at_end (d : RpFile) (f : FILE) (data : list byte) :
  file d = Some f -> gz_clean d = true -> stream_wf d = true ->
  served_data d = Some data ->
  Z.of_nat (length data) <= snd (tell d) ->
  snd (LibRomData.getc d) = EOF /\
  snd (tell (fst (LibRomData.getc d)))
  = match gzfd d with
    | Some _ => Z.of_nat (length data)
    | None => snd (tell d)
    end.
Proof.
  intros Hf Hclean Hwf Hdata Hend. unfold gz_clean, stream_wf, served_data in *.
  rewrite Hf in Hdata. unfold LibRomData.getc.
  change (@LibRomData.read RpFile RpFile_IRpFile) with read.
  unfold tell in Hend. rewrite Hf in Hend.
  destruct (gzfd d) as [gz|] eqn:Hg.
  - apply negb_true_iff in Hclean. cbn [snd] in Hend. unfold gztell in Hend.
    destruct (read_gz d f gz data 1 Hf Hg Hclean Hdata)
      as (gz1 & Hread & _ & _ & _ & Hpos1 & _); [unfold INT_MAX; lia|].
    rewrite slice_past_end in Hread, Hpos1 by lia.
    destruct Hpos1 as [Hseek1 Hp1]; [discriminate|].
    rewrite Hread. cbn [fst snd]. split; [reflexivity|].
    unfold tell. cbn. rewrite Hf. unfold gztell.
    rewrite Hseek1, Hp1, (gz_next_wf gz data Hdata Hwf). cbn [length snd]. lia.
  - injection Hdata as <-. cbn [snd] in Hend. unfold ftello in Hend.
    rewrite (read_plain d f 1 Hf Hg).
    rewrite slice_past_end by lia.
    unfold tell. rewrite Hf.
    destruct (f_error f); simpl; rewrite Hg; unfold ftello; simpl;
      (split; [reflexivity | lia]).
Qed.

(** ** Opening *)

Section Opening.
Variable gunzip : list byte -> option (list byte).

Lemma gzip_probe_no_magic (d : RpFile) (ino : inode) :
  firstn 2 (i_data ino) <> [x1f; x8b] ->
  exists p, gzip_probe gunzip d (opened_rb ino)
            = with_file d (Some (set_pos (opened_rb ino) p)).
Proof.
  intros Hmagic. unfold gzip_probe, fread.
  change (slice (N.to_nat (f_pos (opened_rb ino))) (N.to_nat 2)
                (f_data (opened_rb ino)))
    with (firstn 2 (i_data ino)).
  destruct ((length (firstn 2 (i_data ino)) =? 2)%nat
            && (load_le (firstn 2 (i_data ino)) =? be16_to_cpu 0x1F8B))
    eqn:Hchk.
  - apply gzmagic_test in Hchk. contradiction.
  - eexists. reflexivity.
Qed.

(** X8. A file opened with [FM_OPEN_READ_GZ] whose first two bytes are not
    the gzip magic number, or that has fewer than two bytes, is served
    as it is: the object does not decompress, the position is 0 after the
    two bytes were looked at, [size] is the length of the file and
    sequential reads return the file's bytes. *)
Theorem gzip_mode_plain_file (fs : filesystem) (name : string) (e : Z)
  (ino : inode) :
  mode_to_str FM_OPEN_READ_GZ = Some "rb"%string ->
  fs name = Some ino ->
  firstn 2 (i_data ino) <> [x1f; x8b] ->
  exists d : RpFile,
    RpFile_new gunzip fs name FM_OPEN_READ_GZ e = Returns d /\
    gzfd d = None /\
    snd (tell d) = 0 /\
    snd (size d) = Z.of_nat (length (i_data ino)) /\
    forall sizes : list N,
      snd (read_seq d sizes) = firstn (N.to_nat (total sizes)) (i_data ino).
Proof.
  intros Hm Hfs Hmagic.
  set (d1 := opened_object name FM_OPEN_READ_GZ e ino).
  exists d1. split.
  - unfold RpFile_new, init.
    rewrite (reOpenFile_rb fs name FM_OPEN_READ_GZ e ino Hm Hfs).
    fold d1. change (negb (0 =? 0)) with false. cbv beta iota.
    change (file d1) with (Some (opened_rb ino)). cbv beta iota.
    change (mode d1) with FM_OPEN_READ_GZ. rewrite Z.eqb_refl.
    destruct (gzip_probe_no_magic d1 ino Hmagic) as [p ->].
    reflexivity.
  - split; [reflexivity|]. split; [reflexivity|].
    split; [rewrite (size_plain d1 (opened_rb ino) eq_refl eq_refl);
            reflexivity|].
    intros sizes.
    rewrite (read_seq_plain sizes d1 (opened_rb ino) eq_refl eq_refl).
    reflexivity.
Qed.

(** X9. Opening a file that does not exist with a mode that resolves to
    "rb" or "rb+" leaves the object closed with [m_lastError = ENOENT];
    its [size] is then -1 and a [read] returns nothing. *)
Theorem open_missing_file (fs : filesystem) (name : string) (mode e : Z)
  (n : N) :
  mode_to_str mode = Some "rb"%string \/ mode_to_str mode = Some "rb+"%string ->
  fs name = None ->
  exists d : RpFile,
    RpFile_new gunzip fs name mode e = Returns d /\
    isOpen d = false /\
    m_lastError d = ENOENT /\
    snd (size d) = -1 /\
    snd (read d n) = [].
Proof.
  intros Hm Hfs.
  assert (Hre : reOpenFile fs (RpFilePrivate name mode e)
                = Returns (mkRpFile None name mode false None (-1) ENOENT ENOENT,
                           ENOENT)).
  { unfold reOpenFile. simpl LibRpBase.mode.
    destruct Hm as [-> | ->]; unfold fopen; simpl; rewrite Hfs; reflexivity. }
  eexists. split.
  - unfold RpFile_new, init. rewrite Hre. reflexivity.
  - repeat split.
Qed.

(** X10. Opening with a mode that resolves to "wb+" (and is not the
    decompressing read mode) discards what a regular file held, and
    creates the file if it did not exist: the object is open, at position
    0, and its [size] is 0. *)
Theorem create_mode_truncates (fs : filesystem) (name : string) (mode e : Z) :
  mode_to_str mode = Some "wb+"%string ->
  mode <> FM_OPEN_READ_GZ ->
  match fs name with
  | Some ino => st_mode ino = S_IFREG
  | None => True
  end ->
  exists d : RpFile,
    RpFile_new gunzip fs name mode e = Returns d /\
    isOpen d = true /\
    snd (tell d) = 0 /\
    snd (size d) = 0 /\
    m_lastError d = 0.
Proof.
  intros Hm Hgz Hreg.
  assert (Hre : reOpenFile fs (RpFilePrivate name mode e)
                = Returns (mkRpFile (Some (mkFILE [] 0 S_IFREG true false))
                                    name mode false None (-1) 0 e, 0)).
  { unfold reOpenFile. simpl LibRpBase.mode. rewrite Hm.
    unfold fopen; simpl.
    destruct (fs name) as [ino|]; [rewrite Hreg|]; reflexivity. }
  eexists. split.
  - unfold RpFile_new, init. rewrite Hre.
    change (negb (0 =? 0)) with false. cbv beta iota.
    simpl file. cbv beta iota. simpl LibRpBase.mode.
    destruct (Z.eqb_spec mode FM_OPEN_READ_GZ) as [E|_]; [contradiction|].
    reflexivity.
  - repeat split.
Qed.

End Opening.

End RpFileComposition.

(** * The Game Boy ROM header *)

Section DMGProperties.
Import DMG.

(** X11. For every cartridge type byte, [CartType] gives a hardware number
    that is an index into [dmg_hardware_names], so the name lookup of
    [loadFieldData] stays inside the array, and feature bits among the
    four known ones.  The bytes between the two tables, 0x23 to 0xFB, are
    unknown hardware without features. *)
Theorem CartType_in_bounds (type : byte) :
  0 <= hardware (CartType type) < ARRAY_SIZE dmg_hardware_names /\
  (exists name,
     nth_error dmg_hardware_names (Z.to_nat (hardware (CartType type)))
     = Some name) /\
  0 <= features (CartType type) < 16 /\
  (0x23 <= byte_val type < 0xFC ->
   CartType type = mk_cart_type DMG_HW_UNK 0).
Proof.
  destruct type;
    (split; [vm_compute; split; [discriminate | reflexivity]|]);
    (split; [eexists; vm_compute; reflexivity|]);
    (split; [vm_compute; split; [discriminate | reflexivity]|]);
    intros [Hlo Hhi];
    first [ reflexivity
          | exfalso; apply Hlo; reflexivity
          | exfalso; vm_compute in Hhi; discriminate Hhi ].
Qed.

(** X12. [RomSize] is 32 KiB doubled [type] times for the size codes 0 to
    7, is 1152, 1280 and 1536 for 0x52 to 0x54, and is -1 for every other
    code.  A size that is not -1 is a whole number of 16 KiB banks, so the
    bank count that [loadFieldData] prints for sizes above 32 KiB, the
    size divided by 16, is exact. *)
Theorem RomSize_values (type : byte) :
  (byte_val type < 8 -> RomSize type = 32 * 2 ^ byte_val type) /\
  (RomSize type = -1 <->
   8 <= byte_val type /\ (byte_val type < 0x52 \/ 0x54 < byte_val type)) /\
  (RomSize type <> -1 -> 32 <= RomSize type /\ RomSize type mod 16 = 0) /\
  (rom_size_field type = SizeUnknown <-> RomSize type = -1) /\
  (forall kib banks,
     rom_size_field type = SizeKiBBanks kib banks ->
     kib = RomSize type /\ kib = 16 * banks /\ 4 <= banks).
Proof.
  destruct type;
    match goal with
    | |- context [RomSize ?b] =>
        let r := eval vm_compute in (RomSize b) in
        change (RomSize b) with r;
        let t := eval vm_compute in (rom_size_field b) in
        change (rom_size_field b) with t;
        let w := eval vm_compute in (byte_val b) in
        change (byte_val b) with w
    end;
    (split; [first [intros _; reflexivity | lia]|]);
    (split; [lia|]);
    (split; [first [lia | intros _; split; [lia | reflexivity]]|]);
    (split; [split; intros H; first [reflexivity | discriminate H | lia]|]);
    intros kib banks H; first [discriminate H | injection H as <- <-; lia].
Qed.

(** ** The header checksum *)

Lemma skipn_nth (l : list byte) (p : nat) :
  (p < length l)%nat -> skipn p l = nth p l x00 :: skipn (S p) l.
Proof.
  revert p; induction l as [|a l IH]; intros p Hp; simpl in Hp; [lia|].
  destruct p as [|p]; [reflexivity|].
  simpl skipn at 1. rewrite IH by lia. reflexivity.
Qed.

Lemma nth_seq_slice (l : list byte) (n p : nat) :
  (p + n <= length l)%nat ->
  map (fun i => nth i l x00) (seq p n) = slice p n l.
Proof.
  revert p; induction n as [|n IH]; intros p Hp.
  - reflexivity.
  - unfold slice in *. simpl seq. simpl map.
    rewrite (skipn_nth l p) by lia. simpl firstn.
    f_equal. apply IH. lia.
Qed.

Lemma checksum_fold (g : nat -> Z) (l : list nat) (a : Z) :
  fold_left (fun c i => (c - g i) mod 256) l a mod 256
  = (a - fold_right (fun i acc => g i + acc) 0 l) mod 256.
Proof.
  revert a; induction l as [|i l IH]; intros a; simpl.
  - now rewrite Z.sub_0_r.
  - rewrite IH. rewrite Zminus_mod_idemp_l. f_equal. lia.
Qed.

Lemma checksum_fold_range (g : nat -> Z) (l : list nat) (a : Z) :
  0 <= a < 256 ->
  0 <= fold_left (fun c i => (c - g i) mod 256) l a < 256.
Proof.
  revert a; induction l as [|i l IH]; intros a Ha; simpl; [exact Ha|].
  apply IH. apply Z.mod_pos_bound. lia.
Qed.

Lemma byte_sum_map (l : list byte) (idx : list nat) :
  fold_right (fun i acc => byte_val (nth i l x00) + acc) 0 idx
  = byte_sum (map (fun i => nth i l x00) idx).
Proof.
  induction idx as [|i idx IH]; simpl; [reflexivity | now rewrite IH].
Qed.

(** X13. The header checksum that [loadFieldData] computes over a header
    of at least 0x4D bytes is, as a [uint8_t], minus the sum of the 25
    bytes at the offsets 0x34 to 0x4C and minus 25; it does not depend on
    any other byte.  The header is reported valid exactly when the sum of
    those bytes, 25 and the stored checksum is a multiple of 256. *)
Theorem header_checksum_formula (romHeader8 : list byte)
  (header_checksum : byte) :
  (0x4D <= length romHeader8)%nat ->
  let covered := slice 0x34 25 romHeader8 in
  0 <= header_checksum_of romHeader8 < 256 /\
  header_checksum_of romHeader8 = (- (byte_sum covered + 25)) mod 256 /\
  (header_checksum_valid romHeader8 header_checksum = true <->
   (byte_sum covered + 25 + byte_val header_checksum) mod 256 = 0).
Proof.
  intros Hlen covered.
  assert (Hrange : 0 <= header_checksum_of romHeader8 < 256)
    by (apply checksum_fold_range; lia).
  assert (Hsum : header_checksum_of romHeader8
                 = (- (byte_sum covered + 25)) mod 256).
  { rewrite <- (Z.mod_small (header_checksum_of romHeader8) 256) by exact Hrange.
    unfold header_checksum_of.
    rewrite (checksum_fold (fun i => byte_val (nth i romHeader8 x00))).
    rewrite byte_sum_map.
    change (0x004D - 0x0034)%nat with 25%nat.
    rewrite nth_seq_slice by lia. fold covered.
    replace (0xE7 - byte_sum covered)
      with (- (byte_sum covered + 25) + 1 * 256) by lia.
    apply Z.mod_add. lia. }
  split; [exact Hrange|]. split; [exact Hsum|].
  unfold header_checksum_valid. rewrite Z.eqb_eq.
  pose proof (byte_val_range header_checksum) as Hb.
  rewrite Hsum in *.
  set (S := byte_sum covered + 25) in *.
  split; intros H.
  - assert (E : (- S) mod 256 = byte_val header_checksum) by lia.
    rewrite <- E. rewrite Zplus_mod_idemp_r.
    replace (S + - S) with 0 by lia. reflexivity.
  - assert (E : (- S) mod 256 = byte_val header_checksum mod 256).
    { replace (- S) with (byte_val header_checksum
                          + - (S + byte_val header_checksum)) by lia.
      rewrite <- Zplus_mod_idemp_r.
      rewrite <- Z.sub_0_l, <- Zminus_mod_idemp_r, H. simpl.
      rewrite Z.add_0_r. reflexivity. }
    rewrite (Z.mod_small (byte_val header_checksum)) in E by lia. lia.
Qed.

(** ** The system bit field *)

Lemma cgbflag_bit7 (b : byte) :
  negb (Z.land (byte_val b) 0x80 =? 0) = (0x80 <=? byte_val b).
Proof. destruct b; reflexivity. Qed.

Lemma cgbflag_bit6 (b : byte) :
  (0x80 <=? byte_val b) = true ->
  (Z.land (byte_val b) 0x40 =? 0) = negb (0xC0 <=? byte_val b).
Proof. destruct b; intros H; first [reflexivity | discriminate H]. Qed.

(** X14. The system bit field is never empty and never leaves its three
    bits: the DMG or the CGB bit is always set.  The CGB bit is set
    exactly for a [cgbflag] of 0x80 or more, the DMG bit is missing
    exactly for a [cgbflag] of 0xC0 or more, and the SGB bit is set
    exactly when the old publisher code is 0x33 and [sgbflag] is 0x03.
    The tab is named "CGB" exactly when the CGB bit is set. *)
Theorem dmg_system_bits (cgbflag old_publisher_code sgbflag : byte) :
  let sys := dmg_system cgbflag old_publisher_code sgbflag in
  1 <= sys <= 7 /\
  Z.land sys (Z.lor DMG_SYSTEM_DMG DMG_SYSTEM_CGB) <> 0 /\
  (Z.land sys DMG_SYSTEM_CGB <> 0 <-> 0x80 <= byte_val cgbflag) /\
  (Z.land sys DMG_SYSTEM_DMG = 0 <-> 0xC0 <= byte_val cgbflag) /\
  (Z.land sys DMG_SYSTEM_SGB <> 0 <->
   byte_val old_publisher_code = 0x33 /\ byte_val sgbflag = 0x03) /\
  (tab_name sys = "CGB"%string <-> 0x80 <= byte_val cgbflag).
Proof.
  unfold dmg_system. rewrite cgbflag_bit7.
  pose proof (cgbflag_bit6 cgbflag) as H6.
  destruct (Z.leb_spec 0x80 (byte_val cgbflag)) as [H80|H80].
  - rewrite (H6 eq_refl).
    destruct (Z.leb_spec 0xC0 (byte_val cgbflag)) as [HC0|HC0];
      destruct (Z.eqb_spec (byte_val old_publisher_code) 0x33) as [Hp|Hp];
      destruct (Z.eqb_spec (byte_val sgbflag) 0x03) as [Hs|Hs];
      vm_compute negb; vm_compute andb; cbv beta iota zeta;
      repeat match goal with
             | |- context [Z.land ?a ?b] =>
                 let v := eval vm_compute in (Z.land a b) in
                 change (Z.land a b) with v
             | |- context [Z.lor ?a ?b] =>
                 let v := eval vm_compute in (Z.lor a b) in
                 change (Z.lor a b) with v
             | |- context [tab_name ?a] =>
                 let v := eval vm_compute in (tab_name a) in
                 change (tab_name a) with v
             end;
      repeat split; intros; try lia; try discriminate; try reflexivity;
      try (exfalso; lia); try tauto.
  - destruct (Z.eqb_spec (byte_val old_publisher_code) 0x33) as [Hp|Hp];
      destruct (Z.eqb_spec (byte_val sgbflag) 0x03) as [Hs|Hs];
      vm_compute andb; cbv beta iota zeta;
      repeat match goal with
             | |- context [Z.land ?a ?b] =>
                 let v := eval vm_compute in (Z.land a b) in
                 change (Z.land a b) with v
             | |- context [Z.lor ?a ?b] =>
                 let v := eval vm_compute in (Z.lor a b) in
                 change (Z.lor a b) with v
             | |- context [tab_name ?a] =>
                 let v := eval vm_compute in (tab_name a) in
                 change (tab_name a) with v
             end;
      repeat split; intros; try lia; try discriminate; try reflexivity;
      try (exfalso; lia); try tauto.
Qed.

End DMGProperties.

(** * The run-length decoder of TGA images *)

Section TGAProperties.
Import TGA.

Lemma byte_high_bit (b : byte) :
  negb (Z.land (byte_val b) 0x80 =? 0) = (0x80 <=? byte_val b).
Proof. destruct b; reflexivity. Qed.

Lemma byte_low_bits (b : byte) :
  Z.land (byte_val b) 0x7F
  = if 0x80 <=? byte_val b then byte_val b - 0x80 else byte_val b.
Proof. destruct b; reflexivity. Qed.

Lemma concat_repeat_length (pixel : list byte) (count : nat) :
  length (concat (repeat pixel count)) = (count * length pixel)%nat.
Proof.
  induction count as [|count IH]; simpl; [reflexivity|].
  rewrite length_app, IH. reflexivity.
Qed.

Lemma pixel_bytes_le (bytespp : nat) : (pixel_bytes bytespp <= bytespp)%nat.
Proof. do 5 (destruct bytespp as [|bytespp]; simpl; try lia). Qed.

Lemma pixel_bytes_small (bytespp : nat) :
  (1 <= bytespp <= 4)%nat -> pixel_bytes bytespp = bytespp.
Proof.
  intros H. do 5 (destruct bytespp as [|bytespp]; simpl; try lia).
Qed.

Lemma firstn_prefix (a b : list byte) (n : nat) :
  length a = n -> firstn n (a ++ b) = a.
Proof.
  intros <-. rewrite firstn_app, Nat.sub_diag, firstn_all.
  apply app_nil_r.
Qed.

Lemma skipn_prefix (a b : list byte) (n : nat) :
  length a = n -> skipn n (a ++ b) = b.
Proof.
  intros <-. rewrite skipn_app, Nat.sub_diag, skipn_all. reflexivity.
Qed.

(** More fuel than the source has bytes changes nothing. *)
Lemma rle_loop_fuel (bytespp : nat) (f1 : nat) :
  forall (f2 : nat) (src : list byte) (room : nat),
    (length src <= f1)%nat -> (length src <= f2)%nat ->
    rle_loop f1 bytespp src room = rle_loop f2 bytespp src room.
Proof.
  induction f1 as [|f1 IH]; intros f2 src room H1 H2.
  - destruct src; [|simpl in H1; lia]. destruct f2; reflexivity.
  - destruct src as [|pkt src]; [destruct f2; reflexivity|].
    destruct f2 as [|f2]; [simpl in H2; lia|].
    simpl in H1, H2. simpl.
    rewrite (IH f2 (skipn bytespp src)) by (rewrite length_skipn; lia).
    rewrite (IH f2 (skipn _ src)) by (rewrite length_skipn; lia).
    reflexivity.
Qed.

(** What the loop stores fits the room it was given. *)
Lemma rle_loop_room (bytespp : nat) (fuel : nat) :
  forall (src : list byte) (room : nat) (stored : list byte),
    rle_loop fuel bytespp src room = Returns stored ->
    (length stored <= room)%nat.
Proof.
  induction fuel as [|fuel IH]; intros src room stored H.
  - injection H as <-. simpl. lia.
  - simpl in H. destruct src as [|pkt src]; [injection H as <-; simpl; lia|].
    destruct (Nat.eqb_spec room 0); [injection H as <-; simpl; lia|].
    set (count := (Z.to_nat (Z.land (byte_val pkt) 0x7F) + 1)%nat) in *.
    destruct (Nat.ltb_spec room (count * bytespp));
      [injection H as <-; simpl; lia|].
    destruct (negb (Z.land (byte_val pkt) 0x80 =? 0)).
    + destruct (Nat.ltb_spec (length src) bytespp); [discriminate|].
      destruct (rle_loop fuel bytespp (skipn bytespp src)
                         (room - count * pixel_bytes bytespp))
        as [rest|] eqn:Hrest; [|discriminate].
      injection H as <-. apply IH in Hrest.
      rewrite length_app, concat_repeat_length, length_firstn.
      pose proof (pixel_bytes_le bytespp).
      assert (count * Nat.min (pixel_bytes bytespp) (length src)
              <= count * pixel_bytes bytespp)%nat
        by (apply Nat.mul_le_mono_l; lia).
      assert (count * pixel_bytes bytespp <= count * bytespp)%nat
        by (apply Nat.mul_le_mono_l; lia).
      lia.
    + destruct (Nat.ltb_spec (length src) (count * bytespp)); [discriminate|].
      destruct (rle_loop fuel bytespp (skipn (count * bytespp) src)
                         (room - count * bytespp))
        as [rest|] eqn:Hrest; [|discriminate].
      injection H as <-. apply IH in Hrest.
      rewrite length_app, length_firstn. lia.
Qed.

(** X15. Whenever the decoder returns, the image buffer holds exactly
    [img_size] bytes: first what the packet loop stored, which is never
    more than the buffer holds, and from there to the end of the buffer
    zeros. *)
Theorem rle_decode_length (bytespp img_size : nat) (rle_data img : list byte) :
  rle_decode bytespp img_size rle_data = Returns img ->
  length img = img_size /\
  exists stored : list byte,
    rle_loop (length rle_data) bytespp rle_data img_size = Returns stored /\
    (length stored <= img_size)%nat /\
    firstn (length stored) img = stored /\
    skipn (length stored) img = zeros (img_size - length stored).
Proof.
  unfold rle_decode.
  destruct (rle_loop (length rle_data) bytespp rle_data img_size)
    as [stored|] eqn:Hloop; [|discriminate].
  intros [= <-]. apply rle_loop_room in Hloop.
  split; [rewrite length_app, zeros_length; lia|].
  exists stored. split; [reflexivity|]. split; [exact Hloop|].
  split; [apply firstn_prefix | apply skipn_prefix]; reflexivity.
Qed.

(** Whole packets in front of the rest of a source: the loop stores their
    pixels and goes on with the rest. *)
Lemma rle_loop_packets (bytespp : nat) (src img : list byte) :
  (1 <= bytespp <= 4)%nat ->
  packets bytespp src img ->
  forall (tail : list byte) (room fuel : nat),
    (length img <= room)%nat ->
    (length (src ++ tail) <= fuel)%nat ->
    rle_loop fuel bytespp (src ++ tail) room
    = match rle_loop fuel bytespp tail (room - length img) with
      | Returns rest => Returns (img ++ rest)
      | Undefined => Undefined
      end.
Proof.
  intros Hbpp Hpk.
  induction Hpk as [|pkt pixel src img Hrun Hpx Hpk IH
                    |pkt pixels src img Hraw Hpx Hpk IH];
    intros tail room fuel Hroom Hfuel.
  - simpl. rewrite Nat.sub_0_r.
    destruct (rle_loop fuel bytespp tail room); reflexivity.
  - (* a run-length packet *)
    set (count := (Z.to_nat (byte_val pkt - 0x80) + 1)%nat) in *.
    rewrite length_app, concat_repeat_length, Hpx in Hroom.
    assert (Hcount : (1 <= count)%nat) by (unfold count; lia).
    assert (Hbytes : (bytespp <= count * bytespp)%nat) by nia.
    rewrite <- !app_comm_cons, <- app_assoc in *.
    destruct fuel as [|fuel]; [simpl in Hfuel; lia|].
    simpl in Hfuel. rewrite !length_app in Hfuel.
    simpl rle_loop at 1.
    rewrite byte_high_bit, byte_low_bits.
    destruct (Z.leb_spec 0x80 (byte_val pkt)) as [_|E]; [|lia].
    fold count.
    destruct (Nat.eqb_spec room 0) as [E|_]; [lia|].
    destruct (Nat.ltb_spec room (count * bytespp)) as [E|_]; [lia|].
    cbv iota.
    destruct (Nat.ltb_spec (length (pixel ++ src ++ tail)) bytespp) as [E|_];
      [rewrite length_app in E; lia|].
    rewrite (pixel_bytes_small bytespp Hbpp).
    rewrite (firstn_prefix pixel (src ++ tail) bytespp Hpx).
    rewrite (skipn_prefix pixel (src ++ tail) bytespp Hpx).
    rewrite (IH tail (room - count * bytespp)%nat fuel)
      by (try rewrite length_app; lia).
    rewrite (rle_loop_fuel bytespp (S fuel) fuel tail) by lia.
    rewrite length_app, concat_repeat_length, Hpx.
    replace (room - count * bytespp - length img)%nat
      with (room - (count * bytespp + length img))%nat by lia.
    destruct (rle_loop fuel bytespp tail
                       (room - (count * bytespp + length img)));
      [rewrite app_assoc|]; reflexivity.
  - (* a raw packet *)
    set (count := (Z.to_nat (byte_val pkt) + 1)%nat) in *.
    rewrite length_app, Hpx in Hroom.
    assert (Hcount : (1 <= count)%nat) by (unfold count; lia).
    assert (Hbytes : (bytespp <= count * bytespp)%nat) by nia.
    rewrite <- !app_comm_cons, <- app_assoc in *.
    destruct fuel as [|fuel]; [simpl in Hfuel; lia|].
    simpl in Hfuel. rewrite !length_app in Hfuel.
    simpl rle_loop at 1.
    rewrite byte_high_bit, byte_low_bits.
    destruct (Z.leb_spec 0x80 (byte_val pkt)) as [E|_]; [lia|].
    fold count.
    destruct (Nat.eqb_spec room 0) as [E|_]; [lia|].
    destruct (Nat.ltb_spec room (count * bytespp)) as [E|_]; [lia|].
    cbv iota.
    destruct (Nat.ltb_spec (length (pixels ++ src ++ tail)) (count * bytespp))
      as [E|_]; [rewrite length_app in E; lia|].
    rewrite (firstn_prefix pixels (src ++ tail) (count * bytespp) Hpx).
    rewrite (skipn_prefix pixels (src ++ tail) (count * bytespp) Hpx).
    rewrite (IH tail (room - count * bytespp)%nat fuel)
      by (try rewrite length_app; lia).
    rewrite (rle_loop_fuel bytespp (S fuel) fuel tail) by lia.
    rewrite length_app, Hpx.
    replace (room - count * bytespp - length img)%nat
      with (room - (count * bytespp + length img))%nat by lia.
    destruct (rle_loop fuel bytespp tail
                       (room - (count * bytespp + length img)));
      [rewrite app_assoc|]; reflexivity.
Qed.

(** X16. For 1 to 4 bytes per pixel, a source of whole packets whose
    pixels fit the image buffer is decoded to exactly these pixels: a
    run-length packet gives its pixel as often as it says, a raw packet
    gives its pixels as they are.  If the pixels do not fill the buffer,
    the rest of it is zero; if they fill it, whatever follows the packets
    in the source is not looked at. *)
Theorem rle_decode_packets (bytespp img_size : nat) (src img : list byte) :
  (1 <= bytespp <= 4)%nat ->
  packets bytespp src img ->
  (length img <= img_size)%nat ->
  rle_decode bytespp img_size src
  = Returns (img ++ zeros (img_size - length img)) /\
  (length img = img_size ->
   forall tail : list byte,
     rle_decode bytespp img_size (src ++ tail) = Returns img).
Proof.
  intros Hbpp Hpk Hfit. unfold rle_decode. split.
  - pose proof (rle_loop_packets bytespp src img Hbpp Hpk [] img_size
                  (length src) Hfit) as H.
    rewrite app_nil_r in H. rewrite H by lia.
    destruct (length src); simpl; rewrite app_nil_r; reflexivity.
  - intros Hfull tail.
    rewrite (rle_loop_packets bytespp src img Hbpp Hpk tail img_size
               (length (src ++ tail)) Hfit) by lia.
    rewrite Hfull, Nat.sub_diag.
    assert (Hstop : forall fuel, rle_loop fuel bytespp tail 0 = Returns [])
      by (intros [|fuel]; [|destruct tail]; reflexivity).
    rewrite Hstop, !app_nil_r, Hfull, Nat.sub_diag. simpl.
    apply f_equal, app_nil_r.
Qed.

(** X17. A packet that announces more pixels than the image buffer has
    room for ends the decoding: none of its pixels is stored, nothing
    after it in the source is looked at, and the room that is left is
    cleared. *)
Theorem rle_decode_overflow (bytespp img_size : nat) (src img : list byte)
  (pkt : byte) (tail : list byte) :
  (1 <= bytespp <= 4)%nat ->
  packets bytespp src img ->
  (length img <= img_size)%nat ->
  (img_size - length img < packet_count pkt * bytespp)%nat ->
  rle_decode bytespp img_size (src ++ pkt :: tail)
  = Returns (img ++ zeros (img_size - length img)).
Proof.
  intros Hbpp Hpk Hfit Hover. unfold rle_decode.
  rewrite (rle_loop_packets bytespp src img Hbpp Hpk (pkt :: tail) img_size
             (length (src ++ pkt :: tail)) Hfit) by lia.
  assert (Hfuel : length (src ++ pkt :: tail) = S (length (src ++ tail)))
    by (rewrite !length_app; simpl; lia).
  rewrite Hfuel. simpl rle_loop.
  fold (packet_count pkt).
  destruct (Nat.eqb_spec (img_size - length img) 0) as [_|_];
    [rewrite app_nil_r; reflexivity|].
  destruct (Nat.ltb_spec (img_size - length img) (packet_count pkt * bytespp))
    as [_|E]; [|lia].
  rewrite app_nil_r. reflexivity.
Qed.

(** X18. A source that ends inside a packet, after whole packets that
    left room for it in the image buffer, makes the decoder read the
    missing bytes of the payload from beyond the end of the source
    buffer; nothing in the loop checks the payload against [pSrcEnd]. *)
Theorem rle_decode_truncated (bytespp img_size : nat) (src img : list byte)
  (pkt : byte) (tail : list byte) :
  (1 <= bytespp <= 4)%nat ->
  packets bytespp src img ->
  (packet_count pkt * bytespp + length img <= img_size)%nat ->
  (length tail < packet_payload bytespp pkt)%nat ->
  rle_decode bytespp img_size (src ++ pkt :: tail) = Undefined.
Proof.
  intros Hbpp Hpk Hroom Hshort. unfold rle_decode.
  assert (Hcount : (1 <= packet_count pkt)%nat) by (unfold packet_count; lia).
  assert (Hbytes : (bytespp <= packet_count pkt * bytespp)%nat) by nia.
  rewrite (rle_loop_packets bytespp src img Hbpp Hpk (pkt :: tail) img_size
             (length (src ++ pkt :: tail))) by lia.
  assert (Hfuel : length (src ++ pkt :: tail) = S (length (src ++ tail)))
    by (rewrite !length_app; simpl; lia).
  rewrite Hfuel. simpl rle_loop.
  fold (packet_count pkt). unfold packet_payload in Hshort.
  destruct (Nat.eqb_spec (img_size - length img) 0) as [E|_]; [lia|].
  destruct (Nat.ltb_spec (img_size - length img) (packet_count pkt * bytespp))
    as [E|_]; [lia|].
  destruct (negb (Z.land (byte_val pkt) 0x80 =? 0)).
  - destruct (Nat.ltb_spec (length tail) bytespp) as [_|E];
      [reflexivity | lia].
  - destruct (Nat.ltb_spec (length tail) (packet_count pkt * bytespp))
      as [_|E]; [reflexivity | lia].
Qed.

(** X19. When the colour map is accepted, which needs
    [idx0 + len <= 256], and an entry has at least one byte, the bytes
    that are read into the palette buffer lie inside the buffer, which has
    room for 256 entries; they are stored from byte [idx0] on. *)
Theorem palette_read_in_bounds (idx0 len : Z) (bpp : byte)
  (pal_size offset read_size : Z) :
  0 <= idx0 -> 0 <= len ->
  8 <= byte_val bpp ->
  palette_read idx0 len bpp = Some (pal_size, offset, read_size) ->
  idx0 + len <= 256 /\
  offset = idx0 /\
  0 <= offset /\ offset + read_size <= pal_size /\
  1 <= cmap_bytespp bpp <= 31.
Proof.
  intros Hidx Hlen Hbpp. unfold palette_read.
  rewrite Z.gtb_ltb.
  destruct (Z.ltb_spec 256 (idx0 + len)) as [|Hfit]; [discriminate|].
  intros Hsome.
  assert (Hp : pal_size = 256 * cmap_bytespp bpp) by congruence.
  assert (Ho : offset = idx0) by congruence.
  assert (Hr : read_size = len * cmap_bytespp bpp) by congruence.
  clear Hsome. subst pal_size offset read_size.
  assert (Hb : 1 <= cmap_bytespp bpp <= 31).
  { unfold cmap_bytespp. pose proof (byte_val_range bpp) as Hr.
    destruct (Z.eqb_spec (byte_val bpp) 15); [lia|].
    assert (byte_val bpp / 8 < 32) by (apply Z.div_lt_upper_bound; lia).
    assert (1 <= byte_val bpp / 8) by (apply Z.div_le_lower_bound; lia).
    lia. }
  set (b := cmap_bytespp bpp) in *.
  assert (H1 : idx0 * 1 <= idx0 * b) by (apply Z.mul_le_mono_nonneg_l; lia).
  assert (H2 : (idx0 + len) * b <= 256 * b)
    by (apply Z.mul_le_mono_nonneg_r; lia).
  repeat split; lia.
Qed.

End TGAProperties.

(** * The further properties on the concrete inputs *)

(** "rom.bin": a seek to 7, beyond its three bytes, succeeds. *)
Lemma seek_then_tell_sample :
  snd (seek (sample_rw 0) 7) = 0 /\
  snd (tell (fst (seek (sample_rw 0) 7))) = 7.
Proof.
  destruct (seek_then_tell (sample_rw 0)
              (mkFILE sample_rom 0 S_IFREG true false) 7 eq_refl eq_refl)
    as (Hret & Htell & _); [lia|].
  split; [exact Hret | exact Htell].
Defined.

(** "rom.gz": after a seek to 2 that no read has carried out, a seek to
    -1 fails with [-EIO], and the position is 0 again. *)
Lemma seek_negative_sample :
  snd (tell (fst (seek sample_gz_open 2))) = 2 /\
  snd (seek (fst (seek sample_gz_open 2)) (-1)) = -1 /\
  snd (tell (fst (seek (fst (seek sample_gz_open 2)) (-1)))) = 0 /\
  m_lastError (fst (seek (fst (seek sample_gz_open 2)) (-1))) = -5.
Proof.
  destruct (seek_negative_fails (fst (seek sample_gz_open 2))
              (opened_rb (mkInode S_IFREG sample_gz)) (-1) eq_refl)
    as (Hret & Herr & Htell & _); [lia|].
  split; [reflexivity|]. split; [exact Hret|].
  split; [rewrite Htell; reflexivity | rewrite Herr; reflexivity].
Defined.

(** "rom.bin" at position 2: a read of 5 bytes gives the one byte that
    is left. *)
Lemma read_stays_in_file_sample :
  snd (read (sample_rw 2) 5) = [x43] /\
  snd (tell (fst (read (sample_rw 2) 5))) = 3.
Proof.
  destruct (read_stays_in_file (sample_rw 2)
              (mkFILE sample_rom 2 S_IFREG true false) 5 eq_refl eq_refl)
    as (Hbuf & _ & Htell & _).
  split; [exact Hbuf|]. rewrite Htell, Hbuf. reflexivity.
Defined.

(** "rom.gz": a seek to 1 and a read of 3 bytes give "ell". *)
Lemma seek_then_read_sample :
  snd (read (fst (seek sample_gz_open 1)) 3) = [x65; x6c; x6c].
Proof.
  apply (seek_then_read sample_gz_open
           (opened_rb (mkInode S_IFREG sample_gz))
           sample_text 1 3 eq_refl eq_refl eq_refl).
  - lia.
  - discriminate.
Defined.

(** "rom.bin" at position 5: writing "XY" makes the file 7 bytes long,
    and the two bytes can be read back. *)
Lemma write_then_read_back_sample :
  snd (write (sample_rw 5) [x58; x59]) = 2%N /\
  snd (size (fst (write (sample_rw 5) [x58; x59]))) = 7 /\
  snd (read (fst (seek (fst (write (sample_rw 5) [x58; x59])) 5)) 2)
  = [x58; x59].
Proof.
  destruct (write_then_read_back (fm := FileMode_values) (sample_rw 5)
              (mkFILE sample_rom 5 S_IFREG true false) x58 [x59]
              eq_refl eq_refl eq_refl)
    as (Hret & _ & Hsize & Hread); [discriminate|].
  split; [exact Hret|]. split; [rewrite Hsize; reflexivity | exact Hread].
Defined.

(** "rom.bin" at position 1: after reading 'B', [ungetc] goes back to 1
    and [getc] gives 'B' again. *)
Lemma getc_ungetc_anywhere_sample :
  snd (tell (fst (LibRomData.ungetc (fst (read (sample_rw 1) 1)) 0))) = 1 /\
  snd (LibRomData.getc
         (fst (LibRomData.ungetc (fst (read (sample_rw 1) 1)) 0))) = 66.
Proof.
  destruct (getc_ungetc_anywhere (sample_rw 1) (fst (read (sample_rw 1) 1))
              (mkFILE sample_rom 1 S_IFREG true false) x42 0 eq_refl eq_refl)
    as (_ & _ & Htell & Hc).
  split; [rewrite Htell; reflexivity | exact Hc].
Defined.

(** "rom.gz" after a seek to 100, beyond its 25 bytes: [getc] gives
    [EOF], and the position is 25. *)
Lemma getc_at_end_sample :
  snd (tell (fst (seek sample_gz_open 100))) = 100 /\
  snd (LibRomData.getc (fst (seek sample_gz_open 100))) = EOF /\
  snd (tell (fst (LibRomData.getc (fst (seek sample_gz_open 100))))) = 25.
Proof.
  destruct (getc_at_end (fst (seek sample_gz_open 100))
              (opened_rb (mkInode S_IFREG sample_gz)) sample_text
              eq_refl eq_refl eq_refl eq_refl) as (Hc & Htell);
    [vm_compute; discriminate|].
  split; [reflexivity|]. split; [exact Hc | rewrite Htell; reflexivity].
Defined.

(** "rom.bin" has no gzip magic: opened for decompression, it is served as
    it is. *)
Lemma gzip_mode_plain_file_sample :
  exists d : RpFile,
    RpFile_new sample_gunzip sample_fs "rom.bin" FM_OPEN_READ_GZ 0
    = Returns d /\
    gzfd d = None /\ snd (size d) = 3 /\
    snd (read_seq d [1%N; 2%N]) = [x41; x42; x43].
Proof.
  destruct (gzip_mode_plain_file (fm := FileMode_values) sample_gunzip
              sample_fs "rom.bin" 0 (mkInode S_IFREG sample_rom)
              eq_refl eq_refl)
    as (d & Hnew & Hgz & _ & Hsize & Hread); [discriminate|].
  exists d. split; [exact Hnew|]. split; [exact Hgz|].
  split; [exact Hsize | apply Hread].
Defined.

(** "none.bin" does not exist. *)
Lemma open_missing_file_sample :
  exists d : RpFile,
    RpFile_new sample_gunzip sample_fs "none.bin" FM_OPEN_READ 0 = Returns d /\
    isOpen d = false /\ m_lastError d = ENOENT.
Proof.
  assert (Hm : mode_to_str FM_OPEN_READ = Some "rb"%string \/
               mode_to_str FM_OPEN_READ = Some "rb+"%string)
    by (left; reflexivity).
  destruct (open_missing_file (fm := FileMode_values) sample_gunzip
              sample_fs "none.bin" FM_OPEN_READ 0 1 Hm eq_refl)
    as (d & Hnew & Hopen & Herr & _).
  exists d. split; [exact Hnew|]. split; [exact Hopen | exact Herr].
Defined.

(** "rom.bin" opened with [FM_CREATE_WRITE] is empty. *)
Lemma create_mode_truncates_sample :
  exists d : RpFile,
    RpFile_new sample_gunzip sample_fs "rom.bin" FM_CREATE_WRITE 0
    = Returns d /\
    isOpen d = true /\ snd (size d) = 0.
Proof.
  assert (Hm : mode_to_str FM_CREATE_WRITE = Some "wb+"%string)
    by reflexivity.
  destruct (create_mode_truncates (fm := FileMode_values) sample_gunzip
              sample_fs "rom.bin" FM_CREATE_WRITE 0 Hm)
    as (d & Hnew & Hopen & _ & Hsize & _); [discriminate | reflexivity |].
  exists d. split; [exact Hnew|]. split; [exact Hopen | exact Hsize].
Defined.

(** The sample header: the computed checksum is the stored 0x0B. *)
Lemma header_checksum_sample :
  DMG.header_checksum_of sample_header = 0x0B /\
  DMG.header_checksum_valid sample_header x0b = true.
Proof.
  assert (Hlen : (0x4D <= length sample_header)%nat) by (vm_compute; lia).
  destruct (header_checksum_formula sample_header x0b Hlen)
    as (_ & Hsum & Hvalid).
  split; [rewrite Hsum; reflexivity|].
  apply Hvalid. reflexivity.
Defined.

Lemma sample_packets_spec : TGA.packets 1 sample_packets sample_pixels.
Proof.
  apply (TGA.packets_run 1 x81 [xaa] [x01; x01; x02] [x01; x02]);
    [discriminate | reflexivity |].
  apply (TGA.packets_raw 1 x01 [x01; x02] [] []);
    [reflexivity | reflexivity | constructor].
Defined.

(** The sample packets in a buffer of six bytes: four bytes are stored
    and two are cleared. *)
Lemma rle_decode_length_sample :
  TGA.rle_decode 1 6 sample_packets
  = Returns (sample_pixels ++ [x00; x00]) /\
  length (sample_pixels ++ [x00; x00]) = 6%nat /\
  skipn 4 (sample_pixels ++ [x00; x00]) = [x00; x00].
Proof.
  assert (H : TGA.rle_decode 1 6 sample_packets
              = Returns (sample_pixels ++ [x00; x00])) by reflexivity.
  destruct (rle_decode_length 1 6 sample_packets (sample_pixels ++ [x00; x00])
              H) as (Hlen & stored & Hloop & _ & _ & Hzero).
  injection Hloop as <-.
  split; [exact H|]. split; [exact Hlen | exact Hzero].
Defined.

Lemma rle_decode_packets_sample :
  TGA.rle_decode 1 6 sample_packets
  = Returns (sample_pixels ++ [x00; x00]) /\
  TGA.rle_decode 1 4 (sample_packets ++ [xff; xff])
  = Returns sample_pixels.
Proof.
  assert (Hbpp : (1 <= 1 <= 4)%nat) by lia.
  split.
  - apply (proj1 (rle_decode_packets 1 6 sample_packets sample_pixels
                    Hbpp sample_packets_spec ltac:(vm_compute; lia))).
  - apply (proj2 (rle_decode_packets 1 4 sample_packets sample_pixels
                    Hbpp sample_packets_spec ltac:(vm_compute; lia))).
    reflexivity.
Defined.

(** A colour map of 16 entries of 3 bytes from index 240 on. *)
Lemma palette_read_sample :
  TGA.palette_read 240 16 x18 = Some (768, 240, 48) /\
  240 + 48 <= 768.
Proof.
  assert (H : TGA.palette_read 240 16 x18 = Some (768, 240, 48))
    by reflexivity.
  destruct (palette_read_in_bounds 240 16 x18 768 240 48
              ltac:(lia) ltac:(lia) ltac:(vm_compute; discriminate) H)
    as (_ & _ & _ & Hin & _).
  split; [exact H | exact Hin].
Defined.

(** After the sample packets, a run of four pixels does not fit the two
    bytes that are left of six. *)
Lemma rle_decode_overflow_sample :
  TGA.rle_decode 1 6 (sample_packets ++ [x83; xbb])
  = Returns (sample_pixels ++ [x00; x00]).
Proof.
  assert (Hbpp : (1 <= 1 <= 4)%nat) by lia.
  apply (rle_decode_overflow 1 6 sample_packets sample_pixels x83 [xbb]
           Hbpp sample_packets_spec);
    vm_compute; lia.
Defined.

(** After the sample packets, a raw packet of three pixels of which the
    source holds one. *)
Lemma rle_decode_truncated_sample :
  TGA.rle_decode 1 8 (sample_packets ++ [x02; x01]) = Undefined.
Proof.
  assert (Hbpp : (1 <= 1 <= 4)%nat) by lia.
  apply (rle_decode_truncated 1 8 sample_packets sample_pixels x02 [x01]
           Hbpp sample_packets_spec);
    vm_compute; lia.
Defined.
